(** * BudgetTrack: a shallow embedding of [app/main.py]

    The request handlers of [app/main.py] are embedded as pure functions
    over an explicit database value.  The relational store (SQLite, reached
    through SQLAlchemy) is modelled by two row lists kept in rowid order and
    by the handful of SQL primitives the handlers use.

    Conventions of the model
    - Python [int] is [Z]; [str] is [string]; [Optional[str]] is
      [option string]; [datetime] is a [Z] timestamp.
    - A [float] is the rational it denotes ([Q]); validation, the store's
      [SUM] and Python's [-] round to the nearest binary64 value, ties to
      even ([Binary64.round]).  Infinities and NaN are outside the model:
      the statements about sums ask for amounts and sums within the
      binary64 range ([Binary64.finite]).
    - The integers of a request (ids, year, skip, limit) reach SQLite as
      64-bit integers; outside that range the driver raises
      [OverflowError] before any statement runs.  The handlers are
      modelled on the range, and the statements that depend on it carry
      [int64] as a hypothesis.
    - Every handler returns its response together with the database after
      the request.  A handler that raises leaves the database as it was:
      nothing was committed and [get_db] closes the session. *)

From Stdlib Require Import List ZArith QArith Qabs String Bool Lia.
From Stdlib Require Import Permutation Sorted Setoid Morphisms.
Import ListNotations.

Local Open Scope Z_scope.

(** ** Binary64 arithmetic *)

Module Binary64.

(** The fraction [num / (den * 2^e)] as a pair of integers. *)
Definition scale (num den e : Z) : Z * Z :=
  if 0 <=? e then (num, den * 2 ^ e) else (num * 2 ^ (- e), den).

(** The exponent [k] with [2^k <= num / den < 2^(k+1)], for positive [num]
    and [den]. *)
Definition exponent (num den : Z) : Z :=
  let k := Z.log2 num - Z.log2 den in
  let (p, q) := scale num den k in
  if q <=? p then k else k - 1.

(** The integer nearest to [p / q], the even one of two equally near, for
    positive [q]. *)
Definition nearest_even (p q : Z) : Z :=
  let m := p / q in
  let r := p mod q in
  if 2 * r <? q then m
  else if q <? 2 * r then m + 1
  else if Z.even m then m else m + 1.

(** The binary64 value nearest to [x]: a significand of 53 bits, an
    exponent not below that of the subnormal numbers, in lowest terms. *)
Definition round (x : Q) : Q :=
  let n := Qnum x in
  let d := Zpos (Qden x) in
  if n =? 0 then 0%Q
  else
    let a := Z.abs n in
    let e := Z.max (exponent a d - 52) (-1074) in
    let (p, q) := scale a d e in
    let m := Z.sgn n * nearest_even p q in
    Qred (if 0 <=? e then inject_Z (m * 2 ^ e)
          else Qmake m (Z.to_pos (2 ^ (- e)))).

(** The largest binary64 value, and the numbers within the range. *)
Definition max_value : Q := inject_Z ((2 ^ 53 - 1) * 2 ^ 971).

Definition finite (x : Q) : Prop := (Qabs x <= max_value)%Q.

(** [x + y] and [x - y] on binary64 values. *)
Definition add (x y : Q) : Q := round (x + y).

Definition sub (x y : Q) : Q := round (x - y).

End Binary64.

(** ** Database models *)

(** [class Expense(Base)], table [expenses]. *)
Module Expense.
Record t : Type := Build
  { id : Z;
    title : string;
    amount : Q;
    category : string;
    description : option string;
    date : Z }.
End Expense.

(** [class Budget(Base)], table [budgets]. *)
Module Budget.
Record t : Type := Build
  { id : Z;
    category : string;
    amount : Q;
    month : string;
    year : Z }.
End Budget.

(** ** Pydantic models *)

(** A field of a JSON request body: left out by the client, or given. *)
Inductive field (A : Type) : Type :=
| Omitted : field A
| Given : A -> field A.
Arguments Omitted {A}.
Arguments Given {A} _.

(** [class ExpenseCreate(BaseModel)].  [amount: float]: the number of the
    request body becomes the nearest binary64 value.
    [description: Optional[str] = None]: an omitted description validates
    to [None]. *)
Module ExpenseCreate.
Record t : Type := Build
  { title : string;
    amount : Q;
    category : string;
    description : option string }.

Definition validate (title : string) (amount : Q) (category : string)
    (description : field (option string)) : t :=
  {| title := title;
     amount := Binary64.round amount;
     category := category;
     description := match description with
                    | Omitted => None
                    | Given d => d
                    end |}.
End ExpenseCreate.

(** [class BudgetCreate(BaseModel)]. *)
Module BudgetCreate.
Record t : Type := Build
  { category : string;
    amount : Q;
    month : string;
    year : Z }.
End BudgetCreate.

(** ** The store *)

(** The two tables, rows in rowid order. *)
Record DB : Type := mkDB
  { expenses : list Expense.t;
    budgets : list Budget.t }.

Definition empty_db : DB := {| expenses := []; budgets := [] |}.

(** What a handler does: return a value, raise [HTTPException], or let the
    store's [IntegrityError] escape. *)
Inductive Response (A : Type) : Type :=
| Ok : A -> Response A
| HTTPException : Z -> string -> Response A
| IntegrityError : Response A.
Arguments Ok {A} _.
Arguments HTTPException {A} _ _.
Arguments IntegrityError {A}.

Definition not_found {A : Type} : Response A :=
  HTTPException 404 "Expense not found".

(** ** SQL primitives *)

Module Sql.

(** Rowid given to an inserted row of an [INTEGER PRIMARY KEY] table: one
    more than the largest rowid in the table, 1 in an empty table (the
    table never holds the largest 64-bit rowid here). *)
Definition next_rowid (ids : list Z) : Z :=
  match ids with
  | [] => 1
  | i :: rest => fold_left Z.max rest i + 1
  end.

(** [SUM(x)] over a [Float] column: NULL over no rows, else the rows added
    up in binary64, in the order they are read. *)
Definition sum (xs : list Q) : option Q :=
  match xs with
  | [] => None
  | x :: rest => Some (fold_left Binary64.add rest x)
  end.

(** [COALESCE(x, d)]. *)
Definition coalesce (x : option Q) (d : Q) : Q :=
  match x with
  | Some v => v
  | None => d
  end.

(** [OFFSET n], for an [n] of 64 bits: a negative offset skips nothing. *)
Definition offset {A : Type} (n : Z) (rows : list A) : list A :=
  skipn (Z.to_nat n) rows.

(** [LIMIT n], for an [n] of 64 bits: a negative limit is no limit. *)
Definition limit {A : Type} (n : Z) (rows : list A) : list A :=
  if n <? 0 then rows else firstn (Z.to_nat n) rows.

(** One step of [GROUP BY key] with [SUM(value)]: add the row's value to
    the accumulator of its group, or open a new group. *)
Fixpoint accumulate (key : string) (value : Q) (groups : list (string * Q))
  : list (string * Q) :=
  match groups with
  | [] => [(key, value)]
  | (k, total) :: rest =>
      if String.eqb k key then (k, Binary64.add total value) :: rest
      else (k, total) :: accumulate key value rest
  end.

(** [SELECT key, SUM(value) ... GROUP BY key] over (key, value) rows. *)
Definition group_by_sum (rows : list (string * Q)) : list (string * Q) :=
  fold_left (fun groups r => accumulate (fst r) (snd r) groups) rows [].

(** [ORDER BY key DESC]: the rows sorted by decreasing key, rows of equal
    key in table order. *)
Fixpoint insert_desc {A : Type} (key : A -> Z) (r : A) (sorted : list A)
  : list A :=
  match sorted with
  | [] => [r]
  | x :: rest =>
      if key x <=? key r then r :: sorted
      else x :: insert_desc key r rest
  end.

Definition order_by_desc {A : Type} (key : A -> Z) (rows : list A) : list A :=
  fold_right (insert_desc key) [] rows.

End Sql.

(** ** Expenses endpoints *)

(** The [Expense] built from the fields of [expense.dict()], as inserted:
    the store assigns the id and the column default [datetime.utcnow] the
    date. *)
Definition new_expense (rowid now : Z) (expense : ExpenseCreate.t) : Expense.t :=
  {| Expense.id := rowid;
     Expense.title := ExpenseCreate.title expense;
     Expense.amount := ExpenseCreate.amount expense;
     Expense.category := ExpenseCreate.category expense;
     Expense.description := ExpenseCreate.description expense;
     Expense.date := now |}.

(** [POST /api/expenses]; [now] is the clock read by the column default. *)
Definition create_expense (now : Z) (expense : ExpenseCreate.t) (db : DB)
  : Response Expense.t * DB :=
  let db_expense :=
    new_expense (Sql.next_rowid (map Expense.id (expenses db))) now expense in
  (Ok db_expense,
   {| expenses := expenses db ++ [db_expense]; budgets := budgets db |}).

(** [GET /api/expenses]. *)
Definition get_expenses (skip limit : Z) (db : DB)
  : Response (list Expense.t) * DB :=
  (Ok (Sql.limit limit (Sql.offset skip (expenses db))), db).

(** [db.query(Expense).filter(Expense.id == expense_id).first()], for an
    [expense_id] of 64 bits. *)
Definition query_expense (expense_id : Z) (db : DB) : option Expense.t :=
  find (fun e => Expense.id e =? expense_id) (expenses db).

(** [GET /api/expenses/{expense_id}]. *)
Definition get_expense (expense_id : Z) (db : DB) : Response Expense.t * DB :=
  match query_expense expense_id db with
  | None => (not_found, db)
  | Some expense => (Ok expense, db)
  end.

(** [for key, value in expense.dict().items(): setattr(db_expense, key, value)]:
    the four keys of [ExpenseCreate] are written, [id] and [date] are not. *)
Definition setattrs (db_expense : Expense.t) (expense : ExpenseCreate.t)
  : Expense.t :=
  {| Expense.id := Expense.id db_expense;
     Expense.title := ExpenseCreate.title expense;
     Expense.amount := ExpenseCreate.amount expense;
     Expense.category := ExpenseCreate.category expense;
     Expense.description := ExpenseCreate.description expense;
     Expense.date := Expense.date db_expense |}.

(** [PUT /api/expenses/{expense_id}]: the commit writes the row of the
    primary key of [db_expense]. *)
Definition update_expense (expense_id : Z) (expense : ExpenseCreate.t) (db : DB)
  : Response Expense.t * DB :=
  match query_expense expense_id db with
  | None => (not_found, db)
  | Some db_expense =>
      (Ok (setattrs db_expense expense),
       {| expenses :=
            map (fun e =>
                   if Expense.id e =? Expense.id db_expense
                   then setattrs e expense else e)
                (expenses db);
          budgets := budgets db |})
  end.

(** [DELETE /api/expenses/{expense_id}]: the commit deletes the row of the
    primary key of [db_expense]. *)
Definition delete_expense (expense_id : Z) (db : DB) : Response string * DB :=
  match query_expense expense_id db with
  | None => (not_found, db)
  | Some db_expense =>
      (Ok "Expense deleted successfully"%string,
       {| expenses :=
            filter (fun e => negb (Expense.id e =? Expense.id db_expense))
                   (expenses db);
          budgets := budgets db |})
  end.

(** ** Budget endpoints *)

(** The filter of [create_budget]: category, month and year all equal. *)
Definition same_key (budget : BudgetCreate.t) (b : Budget.t) : bool :=
  String.eqb (Budget.category b) (BudgetCreate.category budget)
  && String.eqb (Budget.month b) (BudgetCreate.month budget)
  && (Budget.year b =? BudgetCreate.year budget).

(** [db.query(Budget).filter(...).first()], for a year of 64 bits. *)
Definition query_budget (budget : BudgetCreate.t) (db : DB) : option Budget.t :=
  find (same_key budget) (budgets db).

(** [existing_budget.amount = budget.amount]. *)
Definition set_amount (b : Budget.t) (amount : Q) : Budget.t :=
  {| Budget.id := Budget.id b;
     Budget.category := Budget.category b;
     Budget.amount := amount;
     Budget.month := Budget.month b;
     Budget.year := Budget.year b |}.

(** The [Budget] built from the fields of [budget.dict()], as inserted. *)
Definition new_budget (rowid : Z) (budget : BudgetCreate.t) : Budget.t :=
  {| Budget.id := rowid;
     Budget.category := BudgetCreate.category budget;
     Budget.amount := BudgetCreate.amount budget;
     Budget.month := BudgetCreate.month budget;
     Budget.year := BudgetCreate.year budget |}.

(** [category = Column(String, unique=True, index=True)]: the unique index
    of table [budgets] refuses a row whose category is already stored. *)
Definition category_taken (category : string) (db : DB) : bool :=
  existsb (fun b => String.eqb (Budget.category b) category) (budgets db).

(** [POST /api/budgets].  The INSERT of the not-found branch goes through
    the unique index on [category]; when it refuses the row, the commit
    raises and nothing is stored. *)
Definition create_budget (budget : BudgetCreate.t) (db : DB)
  : Response Budget.t * DB :=
  match query_budget budget db with
  | Some existing_budget =>
      (Ok (set_amount existing_budget (BudgetCreate.amount budget)),
       {| expenses := expenses db;
          budgets :=
            map (fun b =>
                   if Budget.id b =? Budget.id existing_budget
                   then set_amount b (BudgetCreate.amount budget) else b)
                (budgets db) |})
  | None =>
      let db_budget :=
        new_budget (Sql.next_rowid (map Budget.id (budgets db))) budget in
      if category_taken (Budget.category db_budget) db
      then (IntegrityError, db)
      else (Ok db_budget,
            {| expenses := expenses db; budgets := budgets db ++ [db_budget] |})
  end.

(** [GET /api/budgets]. *)
Definition get_budgets (db : DB) : Response (list Budget.t) * DB :=
  (Ok (budgets db), db).

(** ** Analytics endpoints *)

(** The dictionary returned by [get_summary]; an entry of
    [category_expenses] is the pair (category, amount). *)
Record Summary : Type := mkSummary
  { total_expenses : Q;
    total_budget : Q;
    remaining_budget : Q;
    category_expenses : list (string * Q);
    recent_expenses : list Expense.t }.

(** [GET /api/analytics/summary]. *)
Definition get_summary (db : DB) : Response Summary * DB :=
  let total_expenses :=
    Sql.coalesce (Sql.sum (map Expense.amount (expenses db))) 0%Q in
  let total_budget :=
    Sql.coalesce (Sql.sum (map Budget.amount (budgets db))) 0%Q in
  let category_expenses :=
    Sql.group_by_sum
      (map (fun e => (Expense.category e, Expense.amount e)) (expenses db)) in
  let recent_expenses :=
    Sql.limit 5 (Sql.order_by_desc Expense.date (expenses db)) in
  (Ok {| total_expenses := total_expenses;
         total_budget := total_budget;
         remaining_budget := Binary64.sub total_budget total_expenses;
         category_expenses := category_expenses;
         recent_expenses := recent_expenses |},
   db).

(** ** The API as a transition system *)

(** One request to the API, with the clock reading where the handler
    stores one. *)
Inductive Request : Type :=
| PostExpense (now : Z) (expense : ExpenseCreate.t)
| GetExpenses (skip limit : Z)
| GetExpense (expense_id : Z)
| PutExpense (expense_id : Z) (expense : ExpenseCreate.t)
| DeleteExpense (expense_id : Z)
| PostBudget (budget : BudgetCreate.t)
| GetBudgets
| GetSummary.

(** The database after a request. *)
Definition handle (r : Request) (db : DB) : DB :=
  match r with
  | PostExpense now expense => snd (create_expense now expense db)
  | GetExpenses skip limit => snd (get_expenses skip limit db)
  | GetExpense expense_id => snd (get_expense expense_id db)
  | PutExpense expense_id expense => snd (update_expense expense_id expense db)
  | DeleteExpense expense_id => snd (delete_expense expense_id db)
  | PostBudget budget => snd (create_budget budget db)
  | GetBudgets => snd (get_budgets db)
  | GetSummary => snd (get_summary db)
  end.

(** The databases the API can produce, starting from the empty tables that
    [Base.metadata.create_all] creates. *)
Inductive reachable : DB -> Prop :=
| reachable_empty : reachable empty_db
| reachable_handle : forall r db, reachable db -> reachable (handle r db).

(** ** Notions the statements use *)

(** The key of a budget row: (category, month, year). *)
Definition budget_key (b : Budget.t) : string * string * Z :=
  (Budget.category b, Budget.month b, Budget.year b).

(** The key a request asks for. *)
Definition key_of (budget : BudgetCreate.t) : string * string * Z :=
  (BudgetCreate.category budget, BudgetCreate.month budget,
   BudgetCreate.year budget).

(** The arithmetic sum of a list of amounts. *)
Definition total (xs : list Q) : Q := fold_right Qplus 0%Q xs.

(** An integer SQLite can take: 64 bits, signed. *)
Definition int64 (n : Z) : Prop :=
  - 9223372036854775808 <= n <= 9223372036854775807.

(** The values [xs] and the sums met when they are added onto [acc] stay
    within the binary64 range. *)
Fixpoint finite_from (acc : Q) (xs : list Q) : Prop :=
  match xs with
  | [] => True
  | x :: rest =>
      Binary64.finite x /\ Binary64.finite (acc + x)
      /\ finite_from (Binary64.add acc x) rest
  end.

(** [SUM] adds up [xs] without leaving the binary64 range. *)
Definition finite_sum (xs : list Q) : Prop :=
  match xs with
  | [] => True
  | x :: rest => Binary64.finite x /\ finite_from x rest
  end.

(** No addition rounds when [xs] is added onto [acc] in binary64. *)
Fixpoint no_rounding (acc : Q) (xs : list Q) : Prop :=
  match xs with
  | [] => True
  | x :: rest =>
      (Binary64.add acc x == acc + x)%Q
      /\ no_rounding (Binary64.add acc x) rest
  end.

(** [SUM] adds up [xs] within the binary64 range and no addition rounds. *)
Definition exact_sum (xs : list Q) : Prop :=
  finite_sum xs
  /\ match xs with
     | [] => True
     | x :: rest => no_rounding x rest
     end.

(** Whole amounts whose absolute values add up to less than 2^53. *)
Definition whole_amounts (xs : list Q) : Prop :=
  exists zs,
    xs = map inject_Z zs
    /\ fold_right (fun z s => Z.abs z + s) 0 zs < 2 ^ 53.

(** The primary keys of both tables are distinct. *)
Definition primary_keys (db : DB) : Prop :=
  NoDup (map Expense.id (expenses db)) /\ NoDup (map Budget.id (budgets db)).

(** The values of the rows of a key. *)
Definition values_of (c : string) (rows : list (string * Q)) : list Q :=
  map snd (filter (fun r => String.eqb (fst r) c) rows).

(** The stored expenses of a category. *)
Definition expenses_of (category : string) (db : DB) : list Expense.t :=
  filter (fun e => String.eqb (Expense.category e) category) (expenses db).

(** The order of [ORDER BY key DESC]: no later row has a greater key. *)
Definition desc {A : Type} (key : A -> Z) (x y : A) : Prop := key y <= key x.

(** Row ids as the store hands them out: positive, and increasing in table
    order. *)
Definition rowid_order (ids : list Z) : Prop :=
  StronglySorted Z.lt ids /\ Forall (Z.le 1) ids.

(** The page [GET /api/expenses] answers with. *)
Definition page (skip limit : Z) (db : DB) : list Expense.t :=
  Sql.limit limit (Sql.offset skip (expenses db)).

(** The store after a sequence of requests. *)
Definition run (requests : list Request) (db : DB) : DB :=
  fold_left (fun d r => handle r d) requests db.

(** ** Sample data *)

(** A budget for Food in May 2024, and one for Food in June 2024. *)
Definition food_may : BudgetCreate.t :=
  {| BudgetCreate.category := "Food";
     BudgetCreate.amount := 10%Q;
     BudgetCreate.month := "May";
     BudgetCreate.year := 2024 |}.

Definition food_june (amount : Q) : BudgetCreate.t :=
  {| BudgetCreate.category := "Food";
     BudgetCreate.amount := amount;
     BudgetCreate.month := "June";
     BudgetCreate.year := 2024 |}.

(** The store after [POST /api/budgets] of [food_may] on empty tables. *)
Definition db_food_may : DB := handle (PostBudget food_may) empty_db.

(** The store after creating the expenses {Food, 50}, {Food, 30} and
    {Transport, 20}, in this order, on empty tables. *)
Definition db_three_expenses : DB :=
  handle (PostExpense 3 (ExpenseCreate.validate "Taxi" 20%Q "Transport" Omitted))
    (handle (PostExpense 2 (ExpenseCreate.validate "Dinner" 30%Q "Food" Omitted))
       (handle (PostExpense 1
                  (ExpenseCreate.validate "Lunch" 50%Q "Food"
                     (Given (Some "canteen"%string))))
          empty_db)).

(** The store after creating two Food expenses, of 0.1 and of 0.2, on empty
    tables. *)
Definition db_tenths : DB :=
  handle (PostExpense 2 (ExpenseCreate.validate "Gum" (2 # 10) "Food" Omitted))
    (handle (PostExpense 1
               (ExpenseCreate.validate "Mint" (1 # 10) "Food" Omitted))
       empty_db).

(** The first row of [db_three_expenses]. *)
Definition lunch : Expense.t :=
  {| Expense.id := 1;
     Expense.title := "Lunch";
     Expense.amount := 50%Q;
     Expense.category := "Food";
     Expense.description := Some "canteen"%string;
     Expense.date := 1 |}.

(** * Properties *)

(** ** Rowids *)

Lemma fold_max_ge_init (l : list Z) (a : Z) : a <= fold_left Z.max l a.
Proof.
  revert a; induction l as [|x l IH]; intros a; simpl; [lia|].
  specialize (IH (Z.max a x)); lia.
Qed.

Lemma fold_max_ge_in (l : list Z) (a i : Z) :
  In i l -> i <= fold_left Z.max l a.
Proof.
  revert a; induction l as [|x l IH]; intros a; simpl; [tauto|].
  intros [->|Hin].
  - pose proof (fold_max_ge_init l (Z.max a i)); lia.
  - now apply IH.
Qed.

(** The rowid of an inserted row is above every rowid of the table. *)
Lemma next_rowid_above (ids : list Z) (i : Z) :
  In i ids -> i < Sql.next_rowid ids.
Proof.
  destruct ids as [|a l]; simpl; [tauto|].
  intros [->|Hin].
  - pose proof (fold_max_ge_init l i); lia.
  - pose proof (fold_max_ge_in l a i Hin); lia.
Qed.

Lemma next_rowid_fresh (ids : list Z) : ~ In (Sql.next_rowid ids) ids.
Proof.
  intros Hin; apply next_rowid_above in Hin; lia.
Qed.

(** ** Looking a row up by id *)

Lemma query_expense_some (expense_id : Z) (db : DB) (e : Expense.t) :
  query_expense expense_id db = Some e ->
  In e (expenses db) /\ Expense.id e = expense_id.
Proof.
  unfold query_expense; intros H.
  apply find_some in H; destruct H as [Hin Heq].
  split; [assumption | now apply Z.eqb_eq].
Qed.


(** With distinct ids, the row found for an id is the stored row. *)
Lemma find_by_id_unique (l : list Expense.t) (e : Expense.t) :
  NoDup (map Expense.id l) -> In e l ->
  find (fun x => Expense.id x =? Expense.id e) l = Some e.
Proof.
  induction l as [|x l IH]; simpl; [tauto|].
  intros Hnd [->|Hin].
  - now rewrite Z.eqb_refl.
  - inversion Hnd as [|? ? Hx Hl]; subst.
    destruct (Z.eqb_spec (Expense.id x) (Expense.id e)) as [Heq|_].
    + exfalso; apply Hx; rewrite Heq; now apply in_map.
    + now apply IH.
Qed.

(** The first row of an id after the UPDATE of that id is the updated
    first row. *)
Lemma find_after_update (l : list Expense.t) (i : Z) (p : ExpenseCreate.t) :
  find (fun x => Expense.id x =? i)
       (map (fun x => if Expense.id x =? i then setattrs x p else x) l)
  = option_map (fun x => setattrs x p) (find (fun x => Expense.id x =? i) l).
Proof.
  induction l as [|x l IH]; simpl; [reflexivity|].
  destruct (Expense.id x =? i) eqn:Hx; simpl; rewrite Hx; [reflexivity|].
  exact IH.
Qed.

Lemma find_after_delete (l : list Expense.t) (i : Z) :
  find (fun x => Expense.id x =? i)
       (filter (fun x => negb (Expense.id x =? i)) l) = None.
Proof.
  induction l as [|x l IH]; simpl; [reflexivity|].
  destruct (Expense.id x =? i) eqn:Hx; simpl; [exact IH|].
  now rewrite Hx.
Qed.

Lemma find_appended (l : list Expense.t) (e : Expense.t) :
  (forall x, In x l -> Expense.id x <> Expense.id e) ->
  find (fun x => Expense.id x =? Expense.id e) (l ++ [e]) = Some e.
Proof.
  induction l as [|x l IH]; simpl; intros H.
  - now rewrite Z.eqb_refl.
  - destruct (Z.eqb_spec (Expense.id x) (Expense.id e)) as [Heq|_].
    + exfalso; exact (H x (or_introl eq_refl) Heq).
    + apply IH; intros y Hy; apply H; now right.
Qed.

(** ** The primary keys stay distinct *)

Lemma NoDup_snoc {A : Type} (l : list A) (a : A) :
  NoDup l -> ~ In a l -> NoDup (l ++ [a]).
Proof.
  induction l as [|x l IH]; simpl; intros Hl Ha.
  - constructor; [tauto | constructor].
  - inversion Hl as [|? ? Hx Hl']; subst.
    constructor.
    + rewrite in_app_iff; simpl; intros [H|[H|[]]]; [tauto|].
      apply Ha; now left.
    + apply IH; [assumption|]; intros H; apply Ha; now right.
Qed.

(** Deleting rows keeps the remaining ids distinct. *)
Lemma ids_distinct_after_delete (rows : list Expense.t) (i : Z) :
  NoDup (map Expense.id rows) ->
  NoDup (map Expense.id
           (filter (fun e => negb (Expense.id e =? i)) rows)).
Proof.
  induction rows as [|e rows IH]; simpl; intros Hnd; [assumption|].
  inversion Hnd as [|? ? Hfresh Hrest]; subst.
  destruct (negb (Expense.id e =? i)); simpl; [|now apply IH].
  constructor; [|now apply IH].
  rewrite in_map_iff; intros [e' [Hid He']].
  apply filter_In in He'; destruct He' as [He' _].
  apply Hfresh; rewrite <- Hid; now apply in_map.
Qed.

Lemma map_id_update (l : list Expense.t) (i : Z) (p : ExpenseCreate.t) :
  map Expense.id
      (map (fun x => if Expense.id x =? i then setattrs x p else x) l)
  = map Expense.id l.
Proof.
  rewrite map_map; apply map_ext; intros x.
  now destruct (Expense.id x =? i).
Qed.

Lemma map_id_set_amount (l : list Budget.t) (i : Z) (a : Q) :
  map Budget.id
      (map (fun b => if Budget.id b =? i then set_amount b a else b) l)
  = map Budget.id l.
Proof.
  rewrite map_map; apply map_ext; intros b.
  now destruct (Budget.id b =? i).
Qed.

Lemma handle_primary_keys (r : Request) (db : DB) :
  primary_keys db -> primary_keys (handle r db).
Proof.
  unfold primary_keys; intros [He Hb].
  destruct r; simpl; try (split; assumption).
  - split; [|assumption].
    rewrite map_app; simpl; apply NoDup_snoc; [assumption|].
    apply next_rowid_fresh.
  - unfold get_expense; destruct (query_expense _ _); simpl; now split.
  - unfold update_expense; destruct (query_expense _ _); simpl;
      [|now split].
    split; [|assumption]; now rewrite map_id_update.
  - unfold delete_expense; destruct (query_expense _ _); simpl;
      [|now split].
    split; [|assumption]; now apply ids_distinct_after_delete.
  - unfold create_budget; destruct (query_budget _ _); simpl.
    + split; [assumption|]; now rewrite map_id_set_amount.
    + destruct (category_taken _ _); simpl; [now split|].
      split; [assumption|].
      rewrite map_app; simpl; apply NoDup_snoc; [assumption|].
      apply next_rowid_fresh.
Qed.

Lemma reachable_primary_keys (db : DB) : reachable db -> primary_keys db.
Proof.
  induction 1 as [|r db _ IH].
  - split; constructor.
  - now apply handle_primary_keys.
Qed.

(** ** Expense service *)

(** C4: for a stored expense, [update] followed by [get] on its id returns
    a record carrying exactly the title, amount, category and description
    of the payload, with the id and the date the record had before. *)
Theorem C4_update_then_get (db : DB) (e : Expense.t) (expense : ExpenseCreate.t) :
  reachable db ->
  In e (expenses db) ->
  exists e',
    fst (get_expense (Expense.id e)
           (snd (update_expense (Expense.id e) expense db))) = Ok e'
    /\ Expense.title e' = ExpenseCreate.title expense
    /\ Expense.amount e' = ExpenseCreate.amount expense
    /\ Expense.category e' = ExpenseCreate.category expense
    /\ Expense.description e' = ExpenseCreate.description expense
    /\ Expense.date e' = Expense.date e
    /\ Expense.id e' = Expense.id e.
Proof.
  intros Hreach Hin.
  destruct (reachable_primary_keys db Hreach) as [Hnd _].
  pose proof (find_by_id_unique _ e Hnd Hin) as Hfind.
  exists (setattrs e expense).
  unfold update_expense, query_expense; rewrite Hfind; simpl.
  unfold get_expense, query_expense; simpl.
  rewrite find_after_update, Hfind; simpl.
  repeat split; reflexivity.
Qed.


(** C6: [create] followed by [get] on the id of the created record answers
    with that same record, and [delete] of an id SQLite can take, followed
    by [get] on the same id, answers NotFound. *)
Theorem C6_create_get_delete_get (now : Z) (expense : ExpenseCreate.t)
    (expense_id : Z) (db : DB) :
  (exists e,
      fst (create_expense now expense db) = Ok e
      /\ fst (get_expense (Expense.id e) (snd (create_expense now expense db)))
         = Ok e)
  /\ (int64 expense_id ->
      fst (get_expense expense_id (snd (delete_expense expense_id db)))
      = not_found).
Proof.
  split; [|intros _].
  - set (e := new_expense (Sql.next_rowid (map Expense.id (expenses db)))
                now expense).
    exists e; split; [reflexivity|].
    unfold create_expense, get_expense, query_expense.
    cbn [fst snd expenses]; fold e.
    rewrite find_appended; [reflexivity|].
    intros x Hx; subst e; simpl.
    pose proof (next_rowid_above (map Expense.id (expenses db)) (Expense.id x)
                  (in_map _ _ _ Hx)).
    lia.
  - unfold delete_expense.
    destruct (query_expense expense_id db) as [e|] eqn:Hq; simpl.
    + apply query_expense_some in Hq; destruct Hq as [_ ->].
      unfold get_expense, query_expense; simpl.
      now rewrite find_after_delete.
    + unfold get_expense; now rewrite Hq.
Qed.

(** C10: for a stored expense with a description, [update] with a payload
    that leaves the description out stores a null description: the answer
    of the update, the record read back and every stored row of that id
    carry none. *)
Theorem C10_update_omitted_description (db : DB) (e : Expense.t)
    (title : string) (amount : Q) (category : string) :
  reachable db ->
  In e (expenses db) ->
  Expense.description e <> None ->
  let expense := ExpenseCreate.validate title amount category Omitted in
  let db' := snd (update_expense (Expense.id e) expense db) in
  (exists e', fst (get_expense (Expense.id e) db') = Ok e'
              /\ Expense.description e' = None)
  /\ (forall x, In x (expenses db') -> Expense.id x = Expense.id e ->
                Expense.description x = None).
Proof.
  intros Hreach Hin _ expense db'.
  destruct (reachable_primary_keys db Hreach) as [Hnd _].
  pose proof (find_by_id_unique _ e Hnd Hin) as Hfind.
  subst db'; unfold update_expense, query_expense; rewrite Hfind; simpl.
  split.
  - exists (setattrs e expense).
    unfold get_expense, query_expense; simpl.
    rewrite find_after_update, Hfind; simpl; split; reflexivity.
  - intros x Hx Hid.
    apply in_map_iff in Hx; destruct Hx as [y [Hy _]].
    destruct (Z.eqb_spec (Expense.id y) (Expense.id e)) as [_|Hne].
    + now subst x.
    + subst x; contradiction.
Qed.

(** ** Budget service *)

Lemma same_key_iff (budget : BudgetCreate.t) (b : Budget.t) :
  same_key budget b = true <-> budget_key b = key_of budget.
Proof.
  unfold same_key, budget_key, key_of.
  rewrite !andb_true_iff, !String.eqb_eq, Z.eqb_eq.
  split.
  - intros [[-> ->] ->]; reflexivity.
  - intros H; injection H as -> -> ->; auto.
Qed.

Lemma same_key_ext (b1 b2 : BudgetCreate.t) (b : Budget.t) :
  key_of b1 = key_of b2 -> same_key b1 b = same_key b2 b.
Proof.
  intros H; unfold key_of in H; injection H as Hc Hm Hy.
  unfold same_key; now rewrite Hc, Hm, Hy.
Qed.

Lemma query_budget_none (budget : BudgetCreate.t) (db : DB) :
  query_budget budget db = None <->
  ~ In (key_of budget) (map budget_key (budgets db)).
Proof.
  unfold query_budget; split.
  - intros H Hin.
    apply in_map_iff in Hin; destruct Hin as [b [Hk Hin]].
    pose proof (find_none _ _ H b Hin) as Hf.
    apply same_key_iff in Hk; congruence.
  - intros H.
    destruct (find _ _) as [b|] eqn:Hfind; [|reflexivity].
    apply find_some in Hfind; destruct Hfind as [Hin Hk].
    exfalso; apply H; apply same_key_iff in Hk; rewrite <- Hk.
    now apply in_map.
Qed.

Lemma map_key_set_amount (l : list Budget.t) (i : Z) (a : Q) :
  map budget_key
      (map (fun b => if Budget.id b =? i then set_amount b a else b) l)
  = map budget_key l.
Proof.
  rewrite map_map; apply map_ext; intros b.
  now destruct (Budget.id b =? i).
Qed.

(** The not-found branch stores the new row when the category is free. *)
Lemma create_budget_inserts (budget : BudgetCreate.t) (db : DB) :
  query_budget budget db = None ->
  category_taken (BudgetCreate.category budget) db = false ->
  let b := new_budget (Sql.next_rowid (map Budget.id (budgets db))) budget in
  create_budget budget db
  = (Ok b, {| expenses := expenses db; budgets := budgets db ++ [b] |})
  /\ ~ In (Budget.id b) (map Budget.id (budgets db)).
Proof.
  intros Hq Ht b; unfold create_budget; rewrite Hq; simpl; rewrite Ht.
  split; [reflexivity | apply next_rowid_fresh].
Qed.

(** The not-found branch raises when the category is stored under another
    month or year. *)
Lemma create_budget_refused (budget : BudgetCreate.t) (db : DB) :
  query_budget budget db = None ->
  category_taken (BudgetCreate.category budget) db = true ->
  create_budget budget db = (IntegrityError, db).
Proof.
  intros Hq Ht; unfold create_budget; rewrite Hq; simpl; now rewrite Ht.
Qed.

(** C1: on the store holding a Food budget for May 2024, no row matches
    (Food, June, 2024), yet the upsert of a Food budget for June 2024 raises
    at the unique index on category and stores nothing. *)
Theorem C1_same_category_other_month_refused :
  reachable db_food_may
  /\ query_budget (food_june 100) db_food_may = None
  /\ create_budget (food_june 100) db_food_may = (IntegrityError, db_food_may).
Proof.
  split; [apply reachable_handle, reachable_empty|].
  split; reflexivity.
Qed.

Lemma handle_budget_keys (r : Request) (db : DB) :
  NoDup (map budget_key (budgets db)) ->
  NoDup (map budget_key (budgets (handle r db))).
Proof.
  intros Hnd; destruct r; simpl; try assumption.
  - unfold get_expense; now destruct (query_expense _ _).
  - unfold update_expense; now destruct (query_expense _ _).
  - unfold delete_expense; now destruct (query_expense _ _).
  - unfold create_budget.
    destruct (query_budget budget db) as [existing|] eqn:Hq; simpl.
    + now rewrite map_key_set_amount.
    + destruct (category_taken _ _); simpl; [assumption|].
      rewrite map_app; simpl; apply NoDup_snoc; [assumption|].
      now apply query_budget_none in Hq.
Qed.

(** C2: in every reachable store the budget rows have pairwise distinct
    (category, month, year) keys, and every request preserves this. *)
Theorem C2_one_budget_per_key :
  (forall db, reachable db -> NoDup (map budget_key (budgets db)))
  /\ (forall r db,
        NoDup (map budget_key (budgets db)) ->
        NoDup (map budget_key (budgets (handle r db)))).
Proof.
  split; [|exact handle_budget_keys].
  induction 1 as [|r db _ IH]; [constructor | now apply handle_budget_keys].
Qed.

Lemma find_map_preserving {A : Type} (p : A -> bool) (f : A -> A) (l : list A) :
  (forall x, p (f x) = p x) ->
  find p (map f l) = option_map f (find p l).
Proof.
  intros Hp; induction l as [|x l IH]; simpl; [reflexivity|].
  rewrite Hp; destruct (p x); [reflexivity | exact IH].
Qed.

Lemma filter_map_preserving {A : Type} (p : A -> bool) (f : A -> A)
    (l : list A) :
  (forall x, p (f x) = p x) ->
  filter p (map f l) = map f (filter p l).
Proof.
  intros Hp; induction l as [|x l IH]; simpl; [reflexivity|].
  rewrite Hp; destruct (p x); simpl; now rewrite IH.
Qed.

Lemma find_pointwise {A : Type} (p q : A -> bool) :
  (forall x, p x = q x) -> forall l, find p l = find q l.
Proof.
  intros H l; induction l as [|x l IH]; simpl; [reflexivity|].
  rewrite H; destruct (q x); [reflexivity | exact IH].
Qed.

Lemma filter_find_none {A : Type} (p : A -> bool) (l : list A) :
  find p l = None -> filter p l = [].
Proof.
  induction l as [|x l IH]; simpl; [reflexivity|].
  destruct (p x); [discriminate | exact IH].
Qed.

Lemma find_snoc_none {A : Type} (p : A -> bool) (l : list A) (x : A) :
  find p l = None -> p x = true -> find p (l ++ [x]) = Some x.
Proof.
  induction l as [|y l IH]; simpl; intros Hl Hx.
  - now rewrite Hx.
  - destruct (p y); [discriminate | now apply IH].
Qed.

(** With distinct keys, the row found for a key is the only row of it. *)
Lemma filter_key_unique (budget : BudgetCreate.t) (l : list Budget.t)
    (b : Budget.t) :
  NoDup (map budget_key l) ->
  find (same_key budget) l = Some b ->
  filter (same_key budget) l = [b].
Proof.
  induction l as [|x l IH]; simpl; [discriminate|].
  intros Hnd Hfind; inversion Hnd as [|? ? Hx Hl]; subst.
  destruct (same_key budget x) eqn:Hk.
  - injection Hfind as ->.
    f_equal; apply filter_find_none.
    destruct (find (same_key budget) l) as [y|] eqn:Hy; [|reflexivity].
    apply find_some in Hy; destruct Hy as [Hin Hky].
    exfalso; apply Hx.
    apply same_key_iff in Hk; apply same_key_iff in Hky.
    rewrite Hk, <- Hky; now apply in_map.
  - now apply IH.
Qed.

Lemma same_key_update (budget : BudgetCreate.t) (i : Z) (a : Q) (b : Budget.t) :
  same_key budget (if Budget.id b =? i then set_amount b a else b)
  = same_key budget b.
Proof. now destruct (Budget.id b =? i). Qed.

(** Two upserts of one key in sequence, the first of which is not refused
    by the unique index: both answer with a record of the same id and key,
    and the store then holds exactly one row of the key, the answer of the
    second upsert, carrying the second amount. *)
Lemma create_budget_twice (db : DB) (b1 b2 : BudgetCreate.t) :
  NoDup (map budget_key (budgets db)) ->
  key_of b1 = key_of b2 ->
  fst (create_budget b1 db) <> IntegrityError ->
  exists r1 r2,
    fst (create_budget b1 db) = Ok r1
    /\ fst (create_budget b2 (snd (create_budget b1 db))) = Ok r2
    /\ filter (same_key b2)
         (budgets (snd (create_budget b2 (snd (create_budget b1 db))))) = [r2]
    /\ Budget.amount r2 = BudgetCreate.amount b2
    /\ Budget.id r2 = Budget.id r1
    /\ budget_key r2 = budget_key r1.
Proof.
  intros Hnd Hkey Hok.
  assert (Hext : forall b, same_key b1 b = same_key b2 b)
    by (intros b; now apply same_key_ext).
  destruct (query_budget b1 db) as [ex|] eqn:Hq.
  - (* the first upsert updates [ex] *)
    assert (H1 : create_budget b1 db
                 = (Ok (set_amount ex (BudgetCreate.amount b1)),
                    {| expenses := expenses db;
                       budgets :=
                         map (fun b => if Budget.id b =? Budget.id ex
                                       then set_amount b (BudgetCreate.amount b1)
                                       else b) (budgets db) |}))
      by (unfold create_budget; now rewrite Hq).
    rewrite H1; clear H1 Hok; cbn [fst snd].
    assert (Hq2 : query_budget b2
                    {| expenses := expenses db;
                       budgets :=
                         map (fun b => if Budget.id b =? Budget.id ex
                                       then set_amount b (BudgetCreate.amount b1)
                                       else b) (budgets db) |}
                  = Some (set_amount ex (BudgetCreate.amount b1))).
    { unfold query_budget in *; cbn [budgets].
      rewrite find_map_preserving by (intros; apply same_key_update).
      rewrite (find_pointwise _ _ (fun b => eq_sym (Hext b))), Hq; simpl.
      now rewrite Z.eqb_refl. }
    exists (set_amount ex (BudgetCreate.amount b1)).
    exists (set_amount (set_amount ex (BudgetCreate.amount b1))
                       (BudgetCreate.amount b2)).
    unfold create_budget; rewrite Hq2; cbn [fst snd budgets].
    repeat split.
    rewrite !filter_map_preserving by (intros; apply same_key_update).
    rewrite (filter_key_unique b2 (budgets db) ex Hnd).
    + simpl; now rewrite !Z.eqb_refl.
    + unfold query_budget in Hq.
      now rewrite (find_pointwise _ _ (fun b => eq_sym (Hext b))).
  - (* the first upsert inserts *)
    set (new := new_budget (Sql.next_rowid (map Budget.id (budgets db))) b1).
    destruct (category_taken (BudgetCreate.category b1) db) eqn:Ht.
    { exfalso; apply Hok; now rewrite create_budget_refused. }
    destruct (create_budget_inserts b1 db Hq Ht) as [H1 _]; fold new in H1.
    rewrite H1; clear H1 Hok; cbn [fst snd].
    assert (Hnew : same_key b2 new = true).
    { apply same_key_iff; rewrite <- Hkey; reflexivity. }
    assert (Hq2 : query_budget b2
                    {| expenses := expenses db; budgets := budgets db ++ [new] |}
                  = Some new).
    { unfold query_budget in *; cbn [budgets].
      apply find_snoc_none; [|assumption].
      now rewrite (find_pointwise _ _ (fun b => eq_sym (Hext b))). }
    exists new, (set_amount new (BudgetCreate.amount b2)).
    unfold create_budget; rewrite Hq2; cbn [fst snd budgets].
    repeat split.
    rewrite filter_map_preserving by (intros; apply same_key_update).
    rewrite filter_app, filter_find_none.
    + simpl; rewrite Hnew; simpl; now rewrite Z.eqb_refl.
    + unfold query_budget in Hq.
      now rewrite (find_pointwise _ _ (fun b => eq_sym (Hext b))).
Qed.

(** C3: on the store holding a Food budget for May 2024, two upserts in
    sequence for the key (Food, June, 2024), with amounts 100 and 200, both
    raise at the unique index on category; no row of that key is stored
    afterwards. *)
Theorem C3_upsert_twice_refused :
  reachable db_food_may
  /\ fst (create_budget (food_june 100) db_food_may) = IntegrityError
  /\ fst (create_budget (food_june 200)
            (snd (create_budget (food_june 100) db_food_may)))
     = IntegrityError
  /\ filter (same_key (food_june 200))
       (budgets (snd (create_budget (food_june 200)
                        (snd (create_budget (food_june 100) db_food_may)))))
     = [].
Proof.
  split; [apply reachable_handle, reachable_empty|].
  repeat split; reflexivity.
Qed.

(** ** Binary64 sums of whole numbers *)

Lemma nearest_even_1 (p : Z) : Binary64.nearest_even p 1 = p.
Proof.
  unfold Binary64.nearest_even.
  rewrite Z.mod_1_r, Z.div_1_r; reflexivity.
Qed.

Lemma exponent_whole (a : Z) : 0 < a -> Binary64.exponent a 1 = Z.log2 a.
Proof.
  intros Ha; unfold Binary64.exponent, Binary64.scale.
  change (Z.log2 1) with 0; rewrite Z.sub_0_r.
  pose proof (Z.log2_nonneg a) as Hnn.
  destruct (Z.leb_spec 0 (Z.log2 a)) as [_|]; [|lia].
  rewrite Z.mul_1_l.
  destruct (Z.leb_spec (2 ^ Z.log2 a) a) as [_|Hlt]; [reflexivity|].
  pose proof (Z.log2_spec a Ha); lia.
Qed.

Lemma Qred_whole (z : Z) : Qred (inject_Z z) = inject_Z z.
Proof.
  unfold Qred, inject_Z.
  generalize (Z.ggcd_gcd z 1) (Z.ggcd_correct_divisors z 1).
  destruct (Z.ggcd z 1) as [g [r1 r2]]; simpl.
  rewrite Z.gcd_1_r; intros -> [H1 H2].
  rewrite !Z.mul_1_l in *; subst; reflexivity.
Qed.

(** A whole number below 2^53 in absolute value is a binary64 value. *)
Lemma round_whole (z : Z) :
  Z.abs z < 2 ^ 53 -> Binary64.round (inject_Z z) = inject_Z z.
Proof.
  intros Hz; unfold Binary64.round; simpl Qnum; simpl Qden.
  destruct (Z.eqb_spec z 0) as [->|Hne]; [reflexivity|].
  assert (Ha : 0 < Z.abs z) by lia.
  rewrite (exponent_whole _ Ha).
  assert (Hlog : Z.log2 (Z.abs z) < 53) by (apply Z.log2_lt_pow2; lia).
  pose proof (Z.log2_nonneg (Z.abs z)) as Hnn.
  rewrite Z.max_l by lia.
  set (e := Z.log2 (Z.abs z) - 52).
  unfold Binary64.scale.
  destruct (Z.leb_spec 0 e) as [He|He].
  - assert (e = 0) as -> by lia.
    change (1 * 2 ^ 0) with 1; rewrite nearest_even_1.
    change (2 ^ 0) with 1; rewrite Z.mul_1_r.
    rewrite Z.mul_comm, Z.abs_sgn; apply Qred_whole.
  - rewrite nearest_even_1.
    rewrite <- Qred_whole; apply Qred_complete.
    unfold Qeq; simpl.
    assert (Hpow : 0 < 2 ^ (- e)) by (apply Z.pow_pos_nonneg; lia).
    rewrite Z2Pos.id by assumption.
    rewrite Z.mul_assoc, (Z.mul_comm (Z.sgn z)), Z.abs_sgn; lia.
Qed.

Lemma plus_whole (a b : Z) :
  (inject_Z a + inject_Z b)%Q = inject_Z (a + b).
Proof. unfold Qplus, inject_Z; simpl; f_equal; lia. Qed.

Lemma add_whole (a b : Z) :
  Z.abs (a + b) < 2 ^ 53 ->
  Binary64.add (inject_Z a) (inject_Z b) = inject_Z (a + b).
Proof.
  intros H; unfold Binary64.add; rewrite plus_whole.
  now apply round_whole.
Qed.

Lemma finite_whole (z : Z) :
  Z.abs z < 2 ^ 53 -> Binary64.finite (inject_Z z).
Proof.
  intros Hz; unfold Binary64.finite, Binary64.max_value, Qle; simpl.
  rewrite !Z.mul_1_r.
  assert (H1 : 0 < 2 ^ 971) by (apply Z.pow_pos_nonneg; lia).
  assert (H2 : 0 <= Z.abs z) by lia.
  nia.
Qed.

Lemma abs_sum_nonneg (zs : list Z) :
  0 <= fold_right (fun z s => Z.abs z + s) 0 zs.
Proof. induction zs as [|z zs IH]; simpl; lia. Qed.

Lemma finite_from_whole (acc : Z) (zs : list Z) :
  Z.abs acc + fold_right (fun z s => Z.abs z + s) 0 zs < 2 ^ 53 ->
  finite_from (inject_Z acc) (map inject_Z zs).
Proof.
  revert acc; induction zs as [|z zs IH]; intros acc; simpl; [trivial|].
  intros Hsum; pose proof (abs_sum_nonneg zs) as Hnn.
  rewrite add_whole, plus_whole by lia.
  split; [apply finite_whole; lia|].
  split; [apply finite_whole; lia|].
  apply IH; lia.
Qed.

Lemma no_rounding_whole (acc : Z) (zs : list Z) :
  Z.abs acc + fold_right (fun z s => Z.abs z + s) 0 zs < 2 ^ 53 ->
  no_rounding (inject_Z acc) (map inject_Z zs).
Proof.
  revert acc; induction zs as [|z zs IH]; intros acc; simpl; [trivial|].
  intros Hsum; pose proof (abs_sum_nonneg zs) as Hnn.
  rewrite add_whole by lia.
  split; [now rewrite inject_Z_plus|].
  apply IH; lia.
Qed.

(** Whole amounts of small total are added up without rounding. *)
Lemma exact_sum_whole (xs : list Q) : whole_amounts xs -> exact_sum xs.
Proof.
  intros [zs [-> Hsum]]; destruct zs as [|z zs]; simpl; [now split|].
  simpl in Hsum; pose proof (abs_sum_nonneg zs) as Hnn.
  split; [split|].
  - apply finite_whole; lia.
  - now apply finite_from_whole.
  - now apply no_rounding_whole.
Qed.

(** ** Analytics service *)

Local Open Scope Q_scope.

(** Adding up in binary64 gives the arithmetic sum when no addition
    rounds. *)
Lemma fold_add_exact (xs : list Q) (acc : Q) :
  no_rounding acc xs -> fold_left Binary64.add xs acc == acc + total xs.
Proof.
  revert acc; induction xs as [|x xs IH]; intros acc; simpl.
  - intros _; ring.
  - intros [Hx Hrest]; rewrite (IH _ Hrest), Hx; ring.
Qed.

Lemma sum_exact (xs : list Q) (a : Q) :
  Sql.sum xs = Some a -> exact_sum xs -> a == total xs.
Proof.
  destruct xs as [|x xs]; simpl; [discriminate|].
  intros H [_ Hexact]; injection H as <-; now apply fold_add_exact.
Qed.


Lemma sum_snoc (xs : list Q) (a v : Q) :
  Sql.sum xs = Some a -> Sql.sum (xs ++ [v]) = Some (Binary64.add a v).
Proof.
  destruct xs as [|x xs]; simpl; [discriminate|].
  intros H; injection H as <-; now rewrite fold_left_app.
Qed.


Lemma accumulate_keys (k : string) (v : Q) (g : list (string * Q)) (c : string) :
  In c (map fst (Sql.accumulate k v g)) <-> c = k \/ In c (map fst g).
Proof.
  induction g as [|[k' t] g IH]; simpl.
  - intuition congruence.
  - destruct (String.eqb_spec k' k) as [->|Hne]; simpl.
    + intuition congruence.
    + rewrite IH; intuition congruence.
Qed.

Lemma accumulate_NoDup (k : string) (v : Q) (g : list (string * Q)) :
  NoDup (map fst g) -> NoDup (map fst (Sql.accumulate k v g)).
Proof.
  induction g as [|[k' t] g IH]; simpl; intros Hnd.
  - constructor; [tauto | constructor].
  - inversion Hnd as [|? ? Hk Hg]; subst.
    destruct (String.eqb_spec k' k) as [->|Hne]; simpl.
    + now constructor.
    + constructor; [|now apply IH].
      rewrite accumulate_keys; intros [H|H]; [congruence | contradiction].
Qed.

(** Where an entry of the accumulator comes from after one more row. *)
Lemma accumulate_entry (k : string) (v : Q) (g : list (string * Q))
    (c : string) (a : Q) :
  NoDup (map fst g) ->
  In (c, a) (Sql.accumulate k v g) ->
  (c <> k /\ In (c, a) g)
  \/ (c = k /\ exists a0, In (k, a0) g /\ a = Binary64.add a0 v)
  \/ (c = k /\ ~ In k (map fst g) /\ a = v).
Proof.
  induction g as [|[k' t] g IH]; simpl; intros Hnd Hin.
  - destruct Hin as [H|[]]; injection H as <- <-.
    right; right; tauto.
  - inversion Hnd as [|? ? Hk Hg]; subst.
    destruct (String.eqb_spec k' k) as [->|Hne]; simpl in Hin.
    + destruct Hin as [H|Hin].
      * injection H as <- <-.
        right; left; split; [reflexivity|]; exists t; tauto.
      * left; split; [|tauto].
        intros ->; apply Hk.
        change k with (fst (k, a)); now apply in_map.
    + destruct Hin as [H|Hin].
      * injection H as <- <-; left; split; [assumption | tauto].
      * destruct (IH Hg Hin) as [[Hc H]|[[-> [a0 [H ->]]]|[-> [H ->]]]].
        -- left; tauto.
        -- right; left; split; [reflexivity|]; exists a0; tauto.
        -- right; right; split; [reflexivity|]; split; [|reflexivity].
           intros [Heq|H']; [congruence | contradiction].
Qed.

Lemma values_of_snoc (c : string) (rows : list (string * Q)) (r : string * Q) :
  values_of c (rows ++ [r])
  = values_of c rows ++ (if String.eqb (fst r) c then [snd r] else []).
Proof.
  unfold values_of; rewrite filter_app, map_app; simpl.
  now destruct (String.eqb (fst r) c).
Qed.

Lemma values_of_absent (c : string) (rows : list (string * Q)) :
  ~ In c (map fst rows) -> values_of c rows = [].
Proof.
  unfold values_of; induction rows as [|r rows IH]; simpl; [reflexivity|].
  intros H; destruct (String.eqb_spec (fst r) c) as [Heq|_].
  - exfalso; apply H; now left.
  - apply IH; intros Hin; apply H; now right.
Qed.

(** What [GROUP BY] with [SUM] returns: one row per key of the input, with
    the [SUM] of the values of that key. *)
Lemma group_by_sum_spec (rows : list (string * Q)) :
  NoDup (map fst (Sql.group_by_sum rows))
  /\ (forall c, In c (map fst (Sql.group_by_sum rows)) <-> In c (map fst rows))
  /\ (forall c a, In (c, a) (Sql.group_by_sum rows) ->
                  Sql.sum (values_of c rows) = Some a).
Proof.
  induction rows as [|[k v] rows IH] using rev_ind.
  - simpl; split; [constructor|]; split; [tauto | intros c a []].
  - destruct IH as [Hnd [Hkeys Hsum]].
    unfold Sql.group_by_sum in *; rewrite fold_left_app; simpl.
    set (g := fold_left _ rows []) in *.
    split; [now apply accumulate_NoDup|]; split.
    + intros c; rewrite accumulate_keys, map_app, in_app_iff, Hkeys; simpl.
      intuition congruence.
    + intros c a Hin; rewrite values_of_snoc; simpl.
      destruct (accumulate_entry k v g c a Hnd Hin)
        as [[Hc H]|[[-> [a0 [H ->]]]|[-> [H ->]]]].
      * destruct (String.eqb_spec k c) as [Heq|_]; [congruence|].
        rewrite app_nil_r; now apply Hsum.
      * rewrite String.eqb_refl; apply sum_snoc; now apply Hsum.
      * rewrite String.eqb_refl, values_of_absent; [reflexivity|].
        now rewrite <- Hkeys.
Qed.

Lemma values_of_category_rows (c : string) (es : list Expense.t) :
  values_of c (map (fun e => (Expense.category e, Expense.amount e)) es)
  = map Expense.amount
      (filter (fun e => String.eqb (Expense.category e) c) es).
Proof.
  unfold values_of; induction es as [|e es IH]; simpl; [reflexivity|].
  destruct (String.eqb (Expense.category e) c); simpl; now rewrite IH.
Qed.

(** C8: [category_expenses] holds exactly one entry per category of the
    stored expenses and no entry for any other category; each entry carries
    the [SUM] of the amounts of the expenses of its category, added up in
    binary64 (within its range), which is their arithmetic sum whenever no
    addition rounds, as
    for whole amounts whose absolute values add up to less than 2^53.
    After creating {Food, 50}, {Food, 30} and {Transport, 20} it is, up to
    order, [{Food, 80}; {Transport, 20}]. *)
Theorem C8_category_expenses :
  (forall db, exists s,
      get_summary db = (Ok s, db)
      /\ NoDup (map fst (category_expenses s))
      /\ (forall c, In c (map fst (category_expenses s))
                    <-> exists e, In e (expenses db) /\ Expense.category e = c)
      /\ (forall c a, In (c, a) (category_expenses s) ->
                      finite_sum (map Expense.amount (expenses_of c db)) ->
                      Sql.sum (map Expense.amount (expenses_of c db)) = Some a)
      /\ (forall c a, In (c, a) (category_expenses s) ->
                      exact_sum (map Expense.amount (expenses_of c db)) ->
                      a == total (map Expense.amount (expenses_of c db)))
      /\ (forall c a, In (c, a) (category_expenses s) ->
                      whole_amounts (map Expense.amount (expenses_of c db)) ->
                      a == total (map Expense.amount (expenses_of c db))))
  /\ (exists s,
        reachable db_three_expenses
        /\ get_summary db_three_expenses = (Ok s, db_three_expenses)
        /\ Permutation (category_expenses s)
             [("Food"%string, 80); ("Transport"%string, 20)]).
Proof.
  split.
  - intros db; eexists; split; [reflexivity|]; cbn [category_expenses].
    destruct (group_by_sum_spec
                (map (fun e => (Expense.category e, Expense.amount e))
                     (expenses db))) as [Hnd [Hkeys Hsum]].
    assert (Hentry : forall c a,
               In (c, a)
                  (Sql.group_by_sum
                     (map (fun e => (Expense.category e, Expense.amount e))
                          (expenses db))) ->
               Sql.sum (map Expense.amount (expenses_of c db)) = Some a).
    { intros c a Hin; unfold expenses_of.
      rewrite <- values_of_category_rows; now apply Hsum. }
    split; [assumption|]; split; [|split; [|split]].
    + intros c; rewrite Hkeys, map_map; simpl.
      rewrite in_map_iff; split; intros [e H]; exists e; tauto.
    + intros c a Hin _; now apply Hentry.
    + intros c a Hin; apply sum_exact; now apply Hentry.
    + intros c a Hin Hwhole; apply sum_exact; [now apply Hentry|].
      now apply exact_sum_whole.
  - eexists; split; [repeat apply reachable_handle; apply reachable_empty|].
    split; [reflexivity|].
    vm_compute; apply Permutation_refl.
Qed.

Local Open Scope Z_scope.

Section OrderBy.
Context {A : Type} (key : A -> Z).

Lemma insert_desc_perm (r : A) (l : list A) :
  Permutation (Sql.insert_desc key r l) (r :: l).
Proof.
  induction l as [|x l IH]; simpl; [apply Permutation_refl|].
  destruct (key x <=? key r); [apply Permutation_refl|].
  eapply perm_trans; [apply perm_skip, IH | apply perm_swap].
Qed.

Lemma order_by_desc_perm (l : list A) :
  Permutation (Sql.order_by_desc key l) l.
Proof.
  induction l as [|x l IH]; simpl; [constructor|].
  eapply perm_trans; [apply insert_desc_perm | now apply perm_skip].
Qed.

Lemma insert_desc_sorted (r : A) (l : list A) :
  StronglySorted (desc key) l ->
  StronglySorted (desc key) (Sql.insert_desc key r l).
Proof.
  induction l as [|x l IH]; simpl; intros Hs.
  - constructor; constructor.
  - inversion Hs as [|? ? Hl Hx]; subst.
    destruct (Z.leb_spec (key x) (key r)) as [Hle|Hgt].
    + constructor; [assumption|].
      constructor; [exact Hle|].
      eapply Forall_impl; [|exact Hx].
      unfold desc; intros y Hy; lia.
    + constructor; [now apply IH|].
      eapply Permutation_Forall;
        [apply Permutation_sym, insert_desc_perm|].
      constructor; [unfold desc; lia | assumption].
Qed.

Lemma order_by_desc_sorted (l : list A) :
  StronglySorted (desc key) (Sql.order_by_desc key l).
Proof.
  induction l as [|x l IH]; simpl; [constructor|].
  now apply insert_desc_sorted.
Qed.

(** In a sorted list every row of a prefix is at least every row after
    the prefix, and the prefix is sorted. *)
Lemma sorted_prefix (n : nat) (l : list A) :
  StronglySorted (desc key) l ->
  StronglySorted (desc key) (firstn n l)
  /\ (forall x y, In x (firstn n l) -> In y (skipn n l) -> key y <= key x).
Proof.
  revert l; induction n as [|n IH]; intros l Hs.
  - simpl; split; [constructor | intros x y []].
  - destruct l as [|a l]; simpl; [split; [constructor | intros x y []]|].
    inversion Hs as [|? ? Hl Ha]; subst.
    destruct (IH l Hl) as [Hsorted Hdom].
    rewrite Forall_forall in Ha.
    split.
    + constructor; [assumption|].
      apply Forall_forall; intros y Hy; apply Ha.
      rewrite <- (firstn_skipn n l); apply in_or_app; now left.
    + intros x y [<-|Hx] Hy.
      * apply Ha.
        rewrite <- (firstn_skipn n l); apply in_or_app; now right.
      * now apply Hdom.
Qed.

End OrderBy.

(** C9: [recent_expenses] is sorted by decreasing date, holds five of the
    stored expenses (all of them when fewer are stored), every expense in
    it is dated at least as late as every stored expense outside it, and
    with fewer than five stored expenses it holds them all. *)
Theorem C9_recent_expenses (db : DB) :
  exists s,
    get_summary db = (Ok s, db)
    /\ StronglySorted (desc Expense.date) (recent_expenses s)
    /\ List.length (recent_expenses s) = Nat.min 5 (List.length (expenses db))
    /\ (exists rest, Permutation (recent_expenses s ++ rest) (expenses db))
    /\ (forall x y,
          In x (recent_expenses s) -> In y (expenses db) ->
          ~ In y (recent_expenses s) ->
          Expense.date y <= Expense.date x)
    /\ ((List.length (expenses db) < 5)%nat ->
        Permutation (recent_expenses s) (expenses db)).
Proof.
  eexists; split; [reflexivity|]; simpl.
  change (Sql.limit 5 (Sql.order_by_desc Expense.date (expenses db)))
    with (firstn 5 (Sql.order_by_desc Expense.date (expenses db))).
  set (sorted := Sql.order_by_desc Expense.date (expenses db)).
  assert (Hperm : Permutation sorted (expenses db))
    by apply order_by_desc_perm.
  destruct (sorted_prefix Expense.date 5 sorted
              (order_by_desc_sorted Expense.date (expenses db)))
    as [Hsorted Hdom].
  split; [assumption|]; split; [|split; [|split]].
  - rewrite length_firstn, (Permutation_length Hperm); reflexivity.
  - exists (skipn 5 sorted); now rewrite firstn_skipn.
  - intros x y Hx Hy Hout; apply Hdom with (1 := Hx).
    apply (Permutation_in _ (Permutation_sym Hperm)) in Hy.
    rewrite <- (firstn_skipn 5 sorted) in Hy.
    apply in_app_or in Hy; tauto.
  - intros Hlen; rewrite firstn_all2; [assumption|].
    rewrite (Permutation_length Hperm); lia.
Qed.

(** ** Instances on the sample store *)

Lemma reachable_db_three_expenses : reachable db_three_expenses.
Proof. repeat apply reachable_handle; apply reachable_empty. Defined.

(** C4 on [lunch]: replacing it by a 60 brunch keeps id 1 and date 1. *)
Lemma C4_update_then_get_witness :
  exists e',
    fst (get_expense 1
           (snd (update_expense 1
                   (ExpenseCreate.validate "Brunch" 60%Q "Food"
                      (Given (Some "late"%string)))
                   db_three_expenses))) = Ok e'
    /\ Expense.title e' = "Brunch"%string
    /\ Expense.amount e' = 60%Q
    /\ Expense.category e' = "Food"%string
    /\ Expense.description e' = Some "late"%string
    /\ Expense.date e' = 1
    /\ Expense.id e' = 1.
Proof.
  apply (C4_update_then_get db_three_expenses lunch
           (ExpenseCreate.validate "Brunch" 60%Q "Food"
              (Given (Some "late"%string)))).
  - exact reachable_db_three_expenses.
  - simpl; tauto.
Defined.

(** C10 on [lunch]: an update without description clears "canteen". *)
Lemma C10_update_omitted_description_witness :
  (exists e',
      fst (get_expense 1
             (snd (update_expense 1
                     (ExpenseCreate.validate "Lunch" 55%Q "Food" Omitted)
                     db_three_expenses))) = Ok e'
      /\ Expense.description e' = None)
  /\ (forall x,
        In x (expenses
                (snd (update_expense 1
                        (ExpenseCreate.validate "Lunch" 55%Q "Food" Omitted)
                        db_three_expenses))) ->
        Expense.id x = 1 -> Expense.description x = None).
Proof.
  apply (C10_update_omitted_description db_three_expenses lunch
           "Lunch" 55%Q "Food").
  - exact reachable_db_three_expenses.
  - simpl; tauto.
  - simpl; discriminate.
Defined.

(** * Further properties of the handlers *)

(** ** Row ids *)

Lemma sorted_snoc (ids : list Z) (n : Z) :
  StronglySorted Z.lt ids -> (forall i, In i ids -> i < n) ->
  StronglySorted Z.lt (ids ++ [n]).
Proof.
  induction ids as [|i ids IH]; simpl; intros Hs Hn.
  - constructor; constructor.
  - inversion Hs as [|? ? Hs' Hi]; subst.
    constructor.
    + apply IH; [assumption|]; intros k Hk; apply Hn; now right.
    + apply Forall_app; split; [assumption|].
      constructor; [|constructor]; apply Hn; now left.
Qed.

Lemma rowid_order_snoc (ids : list Z) :
  rowid_order ids -> rowid_order (ids ++ [Sql.next_rowid ids]).
Proof.
  intros [Hs Hp]; split.
  - apply sorted_snoc; [assumption | apply next_rowid_above].
  - apply Forall_app; split; [assumption|].
    constructor; [|constructor].
    destruct ids as [|i ids]; simpl; [lia|].
    inversion Hp; subst.
    pose proof (fold_max_ge_init ids i); lia.
Qed.

Lemma rowid_order_filter {R : Type} (id : R -> Z) (p : R -> bool)
    (rows : list R) :
  rowid_order (map id rows) -> rowid_order (map id (filter p rows)).
Proof.
  unfold rowid_order; induction rows as [|r rows IH]; simpl; [trivial|].
  intros [Hs Hp].
  inversion Hs as [|? ? Hs' Hr]; subst; inversion Hp as [|? ? Hr1 Hp']; subst.
  destruct (IH (conj Hs' Hp')) as [IHs IHp].
  destruct (p r); simpl; [|now split].
  split; constructor; try assumption.
  rewrite Forall_forall in *; intros i Hi; apply Hr.
  apply in_map_iff in Hi; destruct Hi as [x [<- Hx]].
  apply filter_In in Hx; apply in_map; tauto.
Qed.

Lemma handle_rowid_order (r : Request) (db : DB) :
  rowid_order (map Expense.id (expenses db)) ->
  rowid_order (map Budget.id (budgets db)) ->
  rowid_order (map Expense.id (expenses (handle r db)))
  /\ rowid_order (map Budget.id (budgets (handle r db))).
Proof.
  intros He Hb; destruct r; simpl; try (split; assumption).
  - split; [|assumption].
    rewrite map_app; simpl; now apply rowid_order_snoc.
  - unfold get_expense; destruct (query_expense _ _); simpl; now split.
  - unfold update_expense; destruct (query_expense _ _); simpl;
      [|now split].
    split; [|assumption]; now rewrite map_id_update.
  - unfold delete_expense; destruct (query_expense _ _); simpl;
      [|now split].
    split; [|assumption]; now apply rowid_order_filter.
  - unfold create_budget; destruct (query_budget _ _); simpl.
    + split; [assumption|]; now rewrite map_id_set_amount.
    + destruct (category_taken _ _); simpl; [now split|].
      split; [assumption|].
      rewrite map_app; simpl; now apply rowid_order_snoc.
Qed.

(** X1: in every store the API can reach, the expense ids and the budget
    ids are at least 1 and strictly increasing in table order; in
    particular no two rows of a table share an id. *)
Theorem reachable_rowid_order (db : DB) :
  reachable db ->
  rowid_order (map Expense.id (expenses db))
  /\ rowid_order (map Budget.id (budgets db)).
Proof.
  induction 1 as [|r db _ [He Hb]].
  - simpl; repeat split; constructor.
  - now apply handle_rowid_order.
Qed.

(** ** Listing expenses *)

Lemma firstn_plus {R : Type} (a b : nat) (rows : list R) :
  firstn (a + b) rows = firstn a rows ++ firstn b (skipn a rows).
Proof.
  revert rows; induction a as [|a IH]; intros rows; simpl; [reflexivity|].
  destruct rows as [|r rows]; simpl.
  - now rewrite firstn_nil.
  - now rewrite IH.
Qed.

Lemma limit_nonneg {R : Type} (n : Z) (rows : list R) :
  0 <= n -> Sql.limit n rows = firstn (Z.to_nat n) rows.
Proof.
  intros Hn; unfold Sql.limit.
  destruct (Z.ltb_spec n 0); [lia | reflexivity].
Qed.

(** X2: [GET /api/expenses] reads only.  For non-negative [skip] and
    limits that SQLite can take, sums included, the page is a contiguous run of the table starting after [skip]
    rows, of length min(limit, rows left); the page of limit [l1] followed
    by the next page of limit [l2] is the page of limit [l1 + l2]; and a
    limit that covers the table from offset 0 returns every row. *)
Theorem get_expenses_pages (skip l1 l2 : Z) (db : DB) :
  0 <= skip -> 0 <= l1 -> 0 <= l2 ->
  int64 (skip + l1) -> int64 (l1 + l2) ->
  get_expenses skip l1 db = (Ok (page skip l1 db), db)
  /\ (exists before after,
        expenses db = before ++ page skip l1 db ++ after
        /\ List.length before
           = Nat.min (Z.to_nat skip) (List.length (expenses db)))
  /\ List.length (page skip l1 db)
     = Nat.min (Z.to_nat l1) (List.length (expenses db) - Z.to_nat skip)
  /\ page skip (l1 + l2) db = page skip l1 db ++ page (skip + l1) l2 db
  /\ ((List.length (expenses db) <= Z.to_nat l1)%nat ->
      page 0 l1 db = expenses db).
Proof.
  intros Hs H1 H2 _ _; unfold page, Sql.offset.
  rewrite !limit_nonneg by lia.
  split; [unfold get_expenses, Sql.offset; now rewrite limit_nonneg|].
  split; [|split; [|split]].
  - exists (firstn (Z.to_nat skip) (expenses db)).
    exists (skipn (Z.to_nat l1) (skipn (Z.to_nat skip) (expenses db))).
    rewrite !firstn_skipn; split; [reflexivity | apply length_firstn].
  - now rewrite length_firstn, length_skipn.
  - rewrite !Z2Nat.inj_add by lia.
    rewrite firstn_plus, skipn_skipn.
    now rewrite (Nat.add_comm (Z.to_nat l1)).
  - intros Hlen; simpl; now apply firstn_all2.
Qed.

(** ** Expense requests leave the other expenses alone *)

Lemma find_snoc_other {R : Type} (p : R -> bool) (rows : list R) (r : R) :
  p r = false -> find p (rows ++ [r]) = find p rows.
Proof.
  intros Hr; induction rows as [|x rows IH]; simpl.
  - now rewrite Hr.
  - destruct (p x); [reflexivity | exact IH].
Qed.

Lemma find_update_other (rows : list Expense.t) (i j : Z)
    (p : ExpenseCreate.t) :
  i <> j ->
  find (fun x => Expense.id x =? i)
       (map (fun x => if Expense.id x =? j then setattrs x p else x) rows)
  = find (fun x => Expense.id x =? i) rows.
Proof.
  intros Hij; induction rows as [|x rows IH]; simpl; [reflexivity|].
  destruct (Z.eqb_spec (Expense.id x) j) as [Hj|_]; simpl.
  - destruct (Z.eqb_spec (Expense.id x) i) as [Hi|_]; [congruence | exact IH].
  - destruct (Expense.id x =? i); [reflexivity | exact IH].
Qed.

Lemma find_delete_other (rows : list Expense.t) (i j : Z) :
  i <> j ->
  find (fun x => Expense.id x =? i)
       (filter (fun x => negb (Expense.id x =? j)) rows)
  = find (fun x => Expense.id x =? i) rows.
Proof.
  intros Hij; induction rows as [|x rows IH]; simpl; [reflexivity|].
  destruct (Z.eqb_spec (Expense.id x) j) as [Hj|_]; simpl.
  - destruct (Z.eqb_spec (Expense.id x) i) as [Hi|_]; [congruence | exact IH].
  - destruct (Expense.id x =? i); [reflexivity | exact IH].
Qed.

(** X3: [POST /api/expenses] always succeeds; the record it returns carries
    the payload and the clock reading under an id above every stored id, it
    is appended to the table, and what [GET /api/expenses/{id}] answers for
    any other id is what it answered before. *)
Theorem create_expense_frame (now : Z) (expense : ExpenseCreate.t) (db : DB) :
  exists e,
    create_expense now expense db
    = (Ok e, {| expenses := expenses db ++ [e]; budgets := budgets db |})
    /\ (forall x, In x (expenses db) -> Expense.id x < Expense.id e)
    /\ Expense.title e = ExpenseCreate.title expense
    /\ Expense.amount e = ExpenseCreate.amount expense
    /\ Expense.category e = ExpenseCreate.category expense
    /\ Expense.description e = ExpenseCreate.description expense
    /\ Expense.date e = now
    /\ (forall i, i <> Expense.id e ->
          fst (get_expense i (snd (create_expense now expense db)))
          = fst (get_expense i db)).
Proof.
  eexists; split; [reflexivity|].
  split; [|repeat split].
  - intros x Hx; simpl; apply next_rowid_above; now apply in_map.
  - intros i Hi; unfold get_expense, query_expense, create_expense.
    cbn [fst snd expenses].
    rewrite find_snoc_other.
    + now destruct (find _ (expenses db)).
    + apply Z.eqb_neq; simpl in *; congruence.
Qed.

(** X4: [PUT /api/expenses/{id}] changes no id, no budget, and nothing that
    [GET /api/expenses/{i}] answers for another id [i]. *)
Theorem update_expense_frame (expense_id i : Z) (expense : ExpenseCreate.t)
    (db : DB) :
  map Expense.id (expenses (snd (update_expense expense_id expense db)))
  = map Expense.id (expenses db)
  /\ budgets (snd (update_expense expense_id expense db)) = budgets db
  /\ (i <> expense_id ->
      fst (get_expense i (snd (update_expense expense_id expense db)))
      = fst (get_expense i db)).
Proof.
  unfold update_expense.
  destruct (query_expense expense_id db) as [e|] eqn:Hq; simpl;
    [|repeat split].
  apply query_expense_some in Hq; destruct Hq as [_ ->].
  split; [apply map_id_update|]; split; [reflexivity|].
  intros Hi; unfold get_expense, query_expense; simpl.
  rewrite find_update_other by assumption.
  now destruct (find _ (expenses db)).
Qed.

(** X5: [DELETE /api/expenses/{id}] changes no budget and nothing that
    [GET /api/expenses/{i}] answers for another id [i]; a second delete of
    the same id, when SQLite can take it, answers 404. *)
Theorem delete_expense_frame (expense_id i : Z) (db : DB) :
  budgets (snd (delete_expense expense_id db)) = budgets db
  /\ (i <> expense_id ->
      fst (get_expense i (snd (delete_expense expense_id db)))
      = fst (get_expense i db))
  /\ (int64 expense_id ->
      delete_expense expense_id (snd (delete_expense expense_id db))
      = (not_found, snd (delete_expense expense_id db))).
Proof.
  unfold delete_expense at 1 2 4 5.
  destruct (query_expense expense_id db) as [e|] eqn:Hq; simpl.
  - apply query_expense_some in Hq; destruct Hq as [_ ->].
    split; [reflexivity|]; split.
    + intros Hi; unfold get_expense, query_expense; simpl.
      rewrite find_delete_other by assumption.
      now destruct (find _ (expenses db)).
    + intros _; unfold delete_expense, query_expense; simpl.
      now rewrite find_after_delete.
  - repeat split.
    intros _; unfold delete_expense; now rewrite Hq.
Qed.

(** ** How the expense requests compose *)

Lemma filter_keep_all {R : Type} (p : R -> bool) (rows : list R) :
  (forall x, In x rows -> p x = true) -> filter p rows = rows.
Proof.
  induction rows as [|x rows IH]; simpl; intros H; [reflexivity|].
  rewrite (H x (or_introl eq_refl)), IH; [reflexivity|].
  intros y Hy; apply H; now right.
Qed.

(** X6: deleting the expense that [POST /api/expenses] just created gives
    back the store as it was before the create. *)
Theorem create_then_delete (now : Z) (expense : ExpenseCreate.t) (db : DB) :
  exists e,
    fst (create_expense now expense db) = Ok e
    /\ delete_expense (Expense.id e) (snd (create_expense now expense db))
       = (Ok "Expense deleted successfully"%string, db).
Proof.
  set (e := new_expense (Sql.next_rowid (map Expense.id (expenses db)))
              now expense).
  exists e; split; [reflexivity|].
  assert (Hlt : forall x, In x (expenses db) -> Expense.id x <> Expense.id e).
  { intros x Hx.
    pose proof (next_rowid_above (map Expense.id (expenses db)) (Expense.id x)
                  (in_map _ _ _ Hx)).
    subst e; simpl; lia. }
  unfold delete_expense, query_expense, create_expense.
  cbn [fst snd expenses budgets]; fold e.
  rewrite find_appended by assumption.
  rewrite filter_app, filter_keep_all.
  - simpl; rewrite Z.eqb_refl; simpl; rewrite app_nil_r.
    now destruct db.
  - intros x Hx; apply negb_true_iff, Z.eqb_neq; now apply Hlt.
Qed.

(** The row found for an id after the UPDATE of the row of id [j]. *)
Lemma find_after_update_id (rows : list Expense.t) (i j : Z)
    (p : ExpenseCreate.t) :
  find (fun x => Expense.id x =? i)
       (map (fun x => if Expense.id x =? j then setattrs x p else x) rows)
  = option_map (fun x => if Expense.id x =? j then setattrs x p else x)
      (find (fun x => Expense.id x =? i) rows).
Proof.
  induction rows as [|x rows IH]; simpl; [reflexivity|].
  assert (Hid : Expense.id (if Expense.id x =? j then setattrs x p else x)
                = Expense.id x) by now destruct (Expense.id x =? j).
  rewrite Hid; destruct (Expense.id x =? i); [reflexivity | exact IH].
Qed.

(** X7: of two updates of one id in a row the last one wins: answer and
    store are those of the second update alone.  So repeating an update
    changes nothing. *)
Theorem update_expense_last_wins (expense_id : Z) (p1 p2 : ExpenseCreate.t)
    (db : DB) :
  update_expense expense_id p2 (snd (update_expense expense_id p1 db))
  = update_expense expense_id p2 db.
Proof.
  unfold update_expense at 2 3.
  destruct (query_expense expense_id db) as [e|] eqn:Hq; cbn [snd].
  - unfold update_expense, query_expense in *; cbn [expenses budgets].
    rewrite find_after_update_id, Hq; simpl.
    rewrite Z.eqb_refl; simpl.
    f_equal; f_equal.
    rewrite map_map; apply map_ext; intros x.
    destruct (Expense.id x =? Expense.id e) eqn:Hx; simpl; now rewrite Hx.
  - unfold update_expense; now rewrite Hq.
Qed.

Lemma map_keep_all {R : Type} (f : R -> R) (rows : list R) :
  (forall x, In x rows -> f x = x) -> map f rows = rows.
Proof.
  induction rows as [|x rows IH]; simpl; intros H; [reflexivity|].
  rewrite (H x (or_introl eq_refl)), IH; [reflexivity|].
  intros y Hy; apply H; now right.
Qed.

(** With distinct ids, the table splits around a stored row, and no other
    row has its id. *)
Lemma split_at_row (rows : list Expense.t) (e : Expense.t) :
  NoDup (map Expense.id rows) -> In e rows ->
  exists before after,
    rows = before ++ e :: after
    /\ (forall x, In x before \/ In x after -> Expense.id x <> Expense.id e).
Proof.
  intros Hnd Hin.
  destruct (in_split e rows Hin) as [before [after ->]].
  exists before, after; split; [reflexivity|].
  rewrite map_app in Hnd; simpl in Hnd.
  apply NoDup_remove_2 in Hnd.
  intros x Hx Heq; apply Hnd; rewrite <- Heq, <- map_app.
  apply in_map, in_or_app; tauto.
Qed.

(** X8: in a reachable store, deleting a stored expense succeeds and takes
    exactly that row out of the table: the rows before and after it stay,
    in their order, and the budgets are untouched. *)
Theorem delete_expense_removes_one (db : DB) (e : Expense.t) :
  reachable db ->
  In e (expenses db) ->
  exists before after,
    expenses db = before ++ e :: after
    /\ delete_expense (Expense.id e) db
       = (Ok "Expense deleted successfully"%string,
          {| expenses := before ++ after; budgets := budgets db |}).
Proof.
  intros Hreach Hin.
  destruct (reachable_primary_keys db Hreach) as [Hnd _].
  destruct (split_at_row _ e Hnd Hin) as [before [after [Hrows Hother]]].
  exists before, after; split; [assumption|].
  unfold delete_expense, query_expense.
  rewrite (find_by_id_unique _ e Hnd Hin); do 2 f_equal.
  rewrite Hrows, filter_app; simpl; rewrite Z.eqb_refl; simpl.
  rewrite !filter_keep_all; [reflexivity| |];
    intros x Hx; apply negb_true_iff, Z.eqb_neq; apply Hother; tauto.
Qed.

(** X9: in a reachable store, updating a stored expense rewrites exactly
    that row, in place, and answers with it: the rows before and after it
    and the budgets are untouched. *)
Theorem update_expense_changes_one (db : DB) (e : Expense.t)
    (expense : ExpenseCreate.t) :
  reachable db ->
  In e (expenses db) ->
  exists before after,
    expenses db = before ++ e :: after
    /\ update_expense (Expense.id e) expense db
       = (Ok (setattrs e expense),
          {| expenses := before ++ setattrs e expense :: after;
             budgets := budgets db |}).
Proof.
  intros Hreach Hin.
  destruct (reachable_primary_keys db Hreach) as [Hnd _].
  destruct (split_at_row _ e Hnd Hin) as [before [after [Hrows Hother]]].
  exists before, after; split; [assumption|].
  unfold update_expense, query_expense.
  rewrite (find_by_id_unique _ e Hnd Hin); do 2 f_equal.
  rewrite Hrows, map_app; simpl; rewrite Z.eqb_refl.
  f_equal; [|f_equal]; apply map_keep_all; intros x Hx;
    destruct (Z.eqb_spec (Expense.id x) (Expense.id e)) as [Heq|_];
    try reflexivity; exfalso; apply (Hother x); tauto.
Qed.

(** ** Budget upsert *)

Lemma category_taken_iff (category : string) (db : DB) :
  category_taken category db = true
  <-> In category (map Budget.category (budgets db)).
Proof.
  unfold category_taken; rewrite existsb_exists, in_map_iff.
  split; intros [b [H1 H2]]; exists b.
  - apply String.eqb_eq in H2; tauto.
  - split; [assumption | now apply String.eqb_eq].
Qed.

(** The three ways [create_budget] can go. *)
Lemma create_budget_cases (budget : BudgetCreate.t) (db : DB) :
  (exists ex,
      query_budget budget db = Some ex
      /\ create_budget budget db
         = (Ok (set_amount ex (BudgetCreate.amount budget)),
            {| expenses := expenses db;
               budgets :=
                 map (fun b => if Budget.id b =? Budget.id ex
                               then set_amount b (BudgetCreate.amount budget)
                               else b) (budgets db) |}))
  \/ (query_budget budget db = None
      /\ category_taken (BudgetCreate.category budget) db = false
      /\ create_budget budget db
         = (Ok (new_budget (Sql.next_rowid (map Budget.id (budgets db)))
                  budget),
            {| expenses := expenses db;
               budgets :=
                 budgets db
                 ++ [new_budget (Sql.next_rowid (map Budget.id (budgets db)))
                       budget] |}))
  \/ (query_budget budget db = None
      /\ category_taken (BudgetCreate.category budget) db = true
      /\ create_budget budget db = (IntegrityError, db)).
Proof.
  unfold create_budget.
  destruct (query_budget budget db) as [ex|]; [left; now exists ex|].
  right; simpl.
  destruct (category_taken (BudgetCreate.category budget) db);
    [right | left]; now repeat split.
Qed.

(** The lookup after the found branch finds the updated row. *)
Lemma query_after_set_amount (budget : BudgetCreate.t) (db : DB)
    (ex : Budget.t) (rest : list Expense.t) :
  query_budget budget db = Some ex ->
  query_budget budget
    {| expenses := rest;
       budgets :=
         map (fun b => if Budget.id b =? Budget.id ex
                       then set_amount b (BudgetCreate.amount budget)
                       else b) (budgets db) |}
  = Some (set_amount ex (BudgetCreate.amount budget)).
Proof.
  unfold query_budget; cbn [budgets]; intros Hq.
  rewrite find_map_preserving by (intros; apply same_key_update).
  rewrite Hq; simpl; now rewrite Z.eqb_refl.
Qed.

(** The lookup after the insert branch finds the new row. *)
Lemma query_after_insert (budget : BudgetCreate.t) (db : DB) (rowid : Z)
    (rest : list Expense.t) :
  query_budget budget db = None ->
  query_budget budget
    {| expenses := rest; budgets := budgets db ++ [new_budget rowid budget] |}
  = Some (new_budget rowid budget).
Proof.
  unfold query_budget; cbn [budgets]; intros Hq.
  apply find_snoc_none; [assumption | now apply same_key_iff].
Qed.

(** X10: [POST /api/budgets] never answers with an [HTTPException].  For a
    year SQLite can take, it raises [IntegrityError] exactly when no stored
    budget has the requested (category, month, year) but some stored budget
    has the requested category; an [IntegrityError] leaves the store
    unchanged. *)
Theorem create_budget_integrity_error (budget : BudgetCreate.t) (db : DB) :
  (int64 (BudgetCreate.year budget) ->
   (fst (create_budget budget db) = IntegrityError
    <-> ~ In (key_of budget) (map budget_key (budgets db))
        /\ In (BudgetCreate.category budget)
              (map Budget.category (budgets db))))
  /\ (fst (create_budget budget db) = IntegrityError ->
      snd (create_budget budget db) = db)
  /\ (forall status detail,
        fst (create_budget budget db) <> HTTPException status detail).
Proof.
  rewrite <- query_budget_none, <- category_taken_iff.
  destruct (create_budget_cases budget db)
    as [[ex [Hq ->]]|[[Hq [Ht ->]]|[Hq [Ht ->]]]]; rewrite Hq; simpl;
    (split; [intros _|]);
    repeat split; try discriminate; try congruence.
  - intros [Hkey _]; discriminate Hkey.
  - intros [_ Htaken]; congruence.
Qed.

(** X11: an upsert that answers with a record has stored it: the lookup of
    the same key then finds that record, which carries the requested key
    and amount; the expenses are untouched and the table of budgets grew by
    one row if the key was new and kept its size otherwise. *)
Theorem create_budget_then_query (budget : BudgetCreate.t) (db db' : DB)
    (b : Budget.t) :
  create_budget budget db = (Ok b, db') ->
  query_budget budget db' = Some b
  /\ In b (budgets db')
  /\ budget_key b = key_of budget
  /\ Budget.amount b = BudgetCreate.amount budget
  /\ expenses db' = expenses db
  /\ List.length (budgets db')
     = (List.length (budgets db)
        + match query_budget budget db with Some _ => 0 | None => 1 end)%nat.
Proof.
  destruct (create_budget_cases budget db)
    as [[ex [Hq ->]]|[[Hq [Ht ->]]|[Hq [Ht ->]]]]; rewrite Hq;
    intros H; inversion H; subst; clear H.
  - pose proof (query_after_set_amount budget db ex (expenses db) Hq) as Hq'.
    split; [exact Hq'|].
    split; [unfold query_budget in Hq'; now apply find_some in Hq'|].
    unfold query_budget in Hq; apply find_some in Hq; destruct Hq as [_ Hk].
    apply same_key_iff in Hk.
    split; [exact Hk|]; repeat split.
    cbn [budgets]; rewrite length_map; lia.
  - split; [now apply query_after_insert|].
    split; [apply in_or_app; right; now left|].
    repeat split.
    cbn [budgets]; rewrite length_app; simpl; lia.
Qed.

(** X12: the upsert is idempotent: sending the same budget again gives the
    same answer and leaves the store as the first request left it. *)
Theorem create_budget_idempotent (budget : BudgetCreate.t) (db : DB) :
  create_budget budget (snd (create_budget budget db))
  = create_budget budget db.
Proof.
  destruct (create_budget_cases budget db)
    as [[ex [Hq ->]]|[[Hq [Ht ->]]|[Hq [Ht ->]]]]; cbn [snd].
  - unfold create_budget at 1.
    rewrite (query_after_set_amount budget db ex (expenses db) Hq).
    cbn [budgets expenses]; f_equal; f_equal.
    rewrite map_map; apply map_ext; intros x; simpl.
    destruct (Budget.id x =? Budget.id ex) eqn:Hx; simpl; now rewrite Hx.
  - unfold create_budget at 1.
    rewrite (query_after_insert budget db _ (expenses db) Hq).
    cbn [budgets expenses]; f_equal; f_equal.
    rewrite map_app; simpl; rewrite Z.eqb_refl; f_equal.
    apply map_keep_all; intros x Hx.
    destruct (Z.eqb_spec (Budget.id x)
                (Sql.next_rowid (map Budget.id (budgets db))))
      as [Heq|_]; [|reflexivity].
    exfalso; apply (next_rowid_fresh (map Budget.id (budgets db))).
    rewrite <- Heq; now apply in_map.
  - unfold create_budget; rewrite Hq; simpl; now rewrite Ht.
Qed.

(** ** What the unique index on [category] means for the budgets *)

Lemma map_category_set_amount (l : list Budget.t) (i : Z) (a : Q) :
  map Budget.category
      (map (fun b => if Budget.id b =? i then set_amount b a else b) l)
  = map Budget.category l.
Proof.
  rewrite map_map; apply map_ext; intros b.
  now destruct (Budget.id b =? i).
Qed.

Lemma handle_budget_categories (r : Request) (db : DB) :
  NoDup (map Budget.category (budgets db)) ->
  NoDup (map Budget.category (budgets (handle r db))).
Proof.
  intros Hnd; destruct r; simpl; try assumption.
  - unfold get_expense; now destruct (query_expense _ _).
  - unfold update_expense; now destruct (query_expense _ _).
  - unfold delete_expense; now destruct (query_expense _ _).
  - destruct (create_budget_cases budget db)
      as [[ex [Hq ->]]|[[Hq [Ht ->]]|[Hq [Ht ->]]]]; cbn [snd budgets].
    + now rewrite map_category_set_amount.
    + rewrite map_app; simpl; apply NoDup_snoc; [assumption|].
      rewrite <- category_taken_iff; congruence.
    + assumption.
Qed.

Lemma run_reachable (requests : list Request) (db : DB) :
  reachable db -> reachable (run requests db).
Proof.
  revert db; induction requests as [|r requests IH]; intros db H; simpl;
    [assumption|].
  apply IH; now constructor.
Qed.

Lemma reachable_budget_categories (db : DB) :
  reachable db -> NoDup (map Budget.category (budgets db)).
Proof.
  induction 1 as [|r db _ IH]; [constructor|].
  now apply handle_budget_categories.
Qed.

(** No request removes a budget or changes its id, category, month or
    year. *)
Lemma handle_keeps_budgets (r : Request) (db : DB) (b : Budget.t) :
  In b (budgets db) ->
  exists b', In b' (budgets (handle r db))
             /\ Budget.id b' = Budget.id b /\ budget_key b' = budget_key b.
Proof.
  intros Hin; destruct r; simpl;
    try (exists b; now repeat split).
  - exists b; unfold get_expense; destruct (query_expense _ _); now repeat split.
  - exists b; unfold update_expense; destruct (query_expense _ _);
      now repeat split.
  - exists b; unfold delete_expense; destruct (query_expense _ _);
      now repeat split.
  - destruct (create_budget_cases budget db)
      as [[ex [Hq ->]]|[[Hq [Ht ->]]|[Hq [Ht ->]]]]; cbn [snd budgets].
    + exists (if Budget.id b =? Budget.id ex
              then set_amount b (BudgetCreate.amount budget) else b).
      split.
      * apply (in_map (fun x => if Budget.id x =? Budget.id ex
                                then set_amount x (BudgetCreate.amount budget)
                                else x)); assumption.
      * now destruct (Budget.id b =? Budget.id ex).
    + exists b; split; [apply in_or_app; now left | now split].
    + exists b; now repeat split.
Qed.

Lemma run_keeps_budgets (requests : list Request) (db : DB) (b : Budget.t) :
  In b (budgets db) ->
  exists b', In b' (budgets (run requests db))
             /\ Budget.id b' = Budget.id b /\ budget_key b' = budget_key b.
Proof.
  revert db b; induction requests as [|r requests IH]; intros db b Hin; simpl.
  - exists b; now repeat split.
  - destruct (handle_keeps_budgets r db b Hin) as [b1 [H1 [Hid1 Hk1]]].
    destruct (IH _ b1 H1) as [b' [H' [Hid' Hk']]].
    exists b'; split; [assumption|]; split; congruence.
Qed.

Lemma NoDup_map_eq {R K : Type} (f : R -> K) (rows : list R) (x y : R) :
  NoDup (map f rows) -> In x rows -> In y rows -> f x = f y -> x = y.
Proof.
  induction rows as [|r rows IH]; simpl; [tauto|].
  intros Hnd Hx Hy Hf; inversion Hnd as [|? ? Hr Hrows]; subst.
  destruct Hx as [->|Hx], Hy as [->|Hy]; try reflexivity.
  - exfalso; apply Hr; rewrite Hf; now apply in_map.
  - exfalso; apply Hr; rewrite <- Hf; now apply in_map.
  - now apply IH.
Qed.

(** X13: in every reachable store no two budgets share a category; budgets
    are never removed; and once a category has a budget, whatever requests
    follow, the only budget of that category keeps the same id, month and
    year: only its amount can change. *)
Theorem budget_period_is_frozen (db : DB) (b : Budget.t)
    (requests : list Request) :
  reachable db ->
  In b (budgets db) ->
  NoDup (map Budget.category (budgets db))
  /\ (exists b', In b' (budgets (run requests db))
                 /\ Budget.category b' = Budget.category b)
  /\ (forall b', In b' (budgets (run requests db)) ->
                 Budget.category b' = Budget.category b ->
                 Budget.id b' = Budget.id b
                 /\ Budget.month b' = Budget.month b
                 /\ Budget.year b' = Budget.year b).
Proof.
  intros Hreach Hin.
  split; [now apply reachable_budget_categories|].
  destruct (run_keeps_budgets requests db b Hin) as [b1 [H1 [Hid1 Hk1]]].
  unfold budget_key in Hk1; injection Hk1 as Hc Hm Hy.
  split; [now exists b1|].
  intros b' H' Hc'.
  assert (b' = b1) as ->.
  { apply (NoDup_map_eq Budget.category (budgets (run requests db)));
      try assumption; [|congruence].
    now apply reachable_budget_categories, run_reachable. }
  now repeat split.
Qed.

(** ** The summary and the requests *)

(** X14: where the sums stay within the binary64 range, creating an
    expense adds its amount to [total_expenses] of the summary in binary64
    (on an empty table the total becomes the amount) and leaves
    [total_budget] as it was. *)
Theorem summary_after_create (now : Z) (expense : ExpenseCreate.t) (db : DB) :
  finite_sum (map Expense.amount (expenses db)
              ++ [ExpenseCreate.amount expense]) ->
  finite_sum (map Budget.amount (budgets db)) ->
  exists s s',
    fst (get_summary db) = Ok s
    /\ fst (get_summary (snd (create_expense now expense db))) = Ok s'
    /\ total_expenses s'
       = match expenses db with
         | [] => ExpenseCreate.amount expense
         | _ :: _ =>
             Binary64.add (total_expenses s) (ExpenseCreate.amount expense)
         end
    /\ total_budget s' = total_budget s.
Proof.
  intros _ _.
  do 2 eexists; split; [reflexivity|]; split; [reflexivity|].
  cbn [fst snd get_summary create_expense total_expenses total_budget
       remaining_budget expenses budgets].
  split; [|reflexivity].
  rewrite map_app; destruct (expenses db) as [|e rows]; simpl; [reflexivity|].
  now rewrite fold_left_app.
Qed.

Lemma order_by_desc_newest {R : Type} (key : R -> Z) (rows : list R) (r : R) :
  (forall x, In x rows -> key x < key r) ->
  Sql.order_by_desc key (rows ++ [r]) = r :: Sql.order_by_desc key rows.
Proof.
  unfold Sql.order_by_desc; induction rows as [|x rows IH]; simpl; intros H.
  - reflexivity.
  - rewrite IH by (intros y Hy; apply H; now right); simpl.
    destruct (Z.leb_spec (key r) (key x)) as [Hle|_]; [|reflexivity].
    specialize (H x (or_introl eq_refl)); lia.
Qed.

(** X16: an expense created at a clock reading later than the date of
    every stored expense is the first of [recent_expenses] in the summary
    that follows. *)
Theorem created_expense_is_most_recent (now : Z) (expense : ExpenseCreate.t)
    (db : DB) :
  (forall x, In x (expenses db) -> Expense.date x < now) ->
  exists e s',
    fst (create_expense now expense db) = Ok e
    /\ fst (get_summary (snd (create_expense now expense db))) = Ok s'
    /\ hd_error (recent_expenses s') = Some e.
Proof.
  intros Hnew; do 2 eexists; split; [reflexivity|]; split; [reflexivity|].
  simpl; rewrite order_by_desc_newest by (simpl; exact Hnew).
  reflexivity.
Qed.

(** ** Requests that only read, and requests on the other table *)

(** X18: the four GET requests leave the store as it is; the expense
    requests leave the budgets as they are, and the budget upsert leaves
    the expenses as they are, whatever they answer. *)
Theorem requests_keep_their_table (r : Request) (db : DB) :
  match r with
  | GetExpenses _ _ | GetExpense _ | GetBudgets | GetSummary =>
      handle r db = db
  | PostExpense _ _ | PutExpense _ _ | DeleteExpense _ =>
      budgets (handle r db) = budgets db
  | PostBudget _ =>
      expenses (handle r db) = expenses db
  end.
Proof.
  destruct r; simpl; try reflexivity.
  - unfold get_expense; now destruct (query_expense _ _).
  - unfold update_expense; now destruct (query_expense _ _).
  - unfold delete_expense; now destruct (query_expense _ _).
  - unfold create_budget; destruct (query_budget _ _); simpl;
      [reflexivity|].
    now destruct (category_taken _ _).
Qed.

(** ** Instances of the further properties on the sample stores *)

Lemma reachable_db_food_may : reachable db_food_may.
Proof. apply reachable_handle, reachable_empty. Defined.

Lemma in_lunch : In lunch (expenses db_three_expenses).
Proof. simpl; tauto. Defined.

(** X1 on the three sample expenses, of ids 1, 2 and 3. *)
Lemma reachable_rowid_order_witness :
  rowid_order (map Expense.id (expenses db_three_expenses))
  /\ rowid_order (map Budget.id (budgets db_three_expenses)).
Proof.
  exact (reachable_rowid_order db_three_expenses reachable_db_three_expenses).
Defined.

(** X2 on the three sample expenses: the first page of one row followed by
    the second page of one row is the first page of two rows. *)
Lemma get_expenses_pages_witness :
  page 0 2 db_three_expenses
  = page 0 1 db_three_expenses ++ page 1 1 db_three_expenses
  /\ List.length (page 0 1 db_three_expenses) = 1%nat.
Proof.
  destruct (get_expenses_pages 0 1 1 db_three_expenses
              ltac:(lia) ltac:(lia) ltac:(lia)
              ltac:(unfold int64; lia) ltac:(unfold int64; lia))
    as [_ [_ [Hlen [Htile _]]]].
  split; [exact Htile | exact Hlen].
Defined.

(** X8 on [lunch]: deleting it leaves the two rows after it. *)
Lemma delete_expense_removes_one_witness :
  exists before after,
    expenses db_three_expenses = before ++ lunch :: after
    /\ delete_expense 1 db_three_expenses
       = (Ok "Expense deleted successfully"%string,
          {| expenses := before ++ after;
             budgets := budgets db_three_expenses |}).
Proof.
  destruct (delete_expense_removes_one db_three_expenses lunch
              reachable_db_three_expenses in_lunch)
    as [before [after [Hrows Hdel]]].
  exists before, after; split; [exact Hrows | exact Hdel].
Defined.

(** X9 on [lunch]: an update rewrites it where it stands. *)
Lemma update_expense_changes_one_witness :
  exists before after,
    expenses db_three_expenses = before ++ lunch :: after
    /\ update_expense 1 (ExpenseCreate.validate "Brunch" 60%Q "Food" Omitted)
         db_three_expenses
       = (Ok (setattrs lunch
                (ExpenseCreate.validate "Brunch" 60%Q "Food" Omitted)),
          {| expenses :=
               before
               ++ setattrs lunch
                    (ExpenseCreate.validate "Brunch" 60%Q "Food" Omitted)
                  :: after;
             budgets := budgets db_three_expenses |}).
Proof.
  destruct (update_expense_changes_one db_three_expenses lunch
              (ExpenseCreate.validate "Brunch" 60%Q "Food" Omitted)
              reachable_db_three_expenses in_lunch)
    as [before [after [Hrows Hupd]]].
  exists before, after; split; [exact Hrows | exact Hupd].
Defined.

(** X11 on the Food budget of May 2024, sent a second time. *)
Lemma create_budget_then_query_witness :
  query_budget food_may (snd (create_budget food_may db_food_may))
  = Some (new_budget 1 food_may)
  /\ List.length (budgets (snd (create_budget food_may db_food_may))) = 1%nat.
Proof.
  destruct (create_budget_then_query food_may db_food_may
              (snd (create_budget food_may db_food_may))
              (new_budget 1 food_may) eq_refl)
    as [Hq [_ [_ [_ [_ Hlen]]]]].
  split; [exact Hq | exact Hlen].
Defined.

(** X13 on the Food budget of May 2024: after a refused upsert for June and
    a repeated one for May, a Food budget is still stored. *)
Lemma budget_period_is_frozen_witness :
  NoDup (map Budget.category (budgets db_food_may))
  /\ exists b',
       In b' (budgets (run [PostBudget (food_june 100); PostBudget food_may]
                         db_food_may))
       /\ Budget.category b' = "Food"%string.
Proof.
  destruct (budget_period_is_frozen db_food_may (new_budget 1 food_may)
              [PostBudget (food_june 100); PostBudget food_may]
              reachable_db_food_may (or_introl eq_refl))
    as [Hnd [Hkept _]].
  split; [exact Hnd | exact Hkept].
Defined.

(** X16 on the three sample expenses, dated 1, 2 and 3, at clock 4. *)
Lemma created_expense_is_most_recent_witness :
  exists e s',
    fst (create_expense 4 (ExpenseCreate.validate "Tea" 2%Q "Food" Omitted)
           db_three_expenses) = Ok e
    /\ fst (get_summary
              (snd (create_expense 4
                      (ExpenseCreate.validate "Tea" 2%Q "Food" Omitted)
                      db_three_expenses))) = Ok s'
    /\ hd_error (recent_expenses s') = Some e.
Proof.
  apply (created_expense_is_most_recent 4
           (ExpenseCreate.validate "Tea" 2%Q "Food" Omitted)
           db_three_expenses).
  simpl; intros x [<-|[<-|[<-|[]]]]; simpl; lia.
Defined.


(** ** Rounding in the summary *)

Lemma reachable_db_tenths : reachable db_tenths.
Proof. repeat apply reachable_handle; apply reachable_empty. Defined.


(** C8, as first stated, fails on the same store: the Food entry of
    [category_expenses] is the binary64 sum of 0.1 and 0.2, not the
    arithmetic sum of the two stored amounts. *)
Lemma C8_rounded_category_sum :
  exists s a,
    reachable db_tenths
    /\ get_summary db_tenths = (Ok s, db_tenths)
    /\ In ("Food"%string, a) (category_expenses s)
    /\ ~ (a == total (map Expense.amount (expenses_of "Food" db_tenths)))%Q.
Proof.
  do 2 eexists; split; [exact reachable_db_tenths|].
  split; [reflexivity|].
  split; [vm_compute; left; reflexivity|].
  vm_compute; intros H; discriminate H.
Qed.



(** C6 on the three sample expenses: after deleting id 1, id 1 is gone. *)
Lemma C6_create_get_delete_get_witness :
  fst (get_expense 1 (snd (delete_expense 1 db_three_expenses))) = not_found.
Proof.
  destruct (C6_create_get_delete_get 4
              (ExpenseCreate.validate "Tea" 2%Q "Food" Omitted)
              1 db_three_expenses)
    as [_ Hgone].
  apply Hgone; unfold int64; lia.
Defined.


(** C8 on the three sample expenses: the Food entry, 80, is the arithmetic
    sum of the two Food expenses. *)
Lemma C8_category_expenses_witness :
  exists s,
    get_summary db_three_expenses = (Ok s, db_three_expenses)
    /\ In ("Food"%string, 80%Q) (category_expenses s)
    /\ (80 == total (map Expense.amount
                       (expenses_of "Food" db_three_expenses)))%Q.
Proof.
  destruct (proj1 C8_category_expenses db_three_expenses)
    as [s [Hs [_ [_ [_ [_ Hwhole]]]]]].
  assert (Hin : In ("Food"%string, 80%Q) (category_expenses s)).
  { unfold get_summary in Hs; injection Hs as <-; vm_compute; tauto. }
  exists s; split; [exact Hs|]; split; [exact Hin|].
  apply (Hwhole _ _ Hin).
  exists [50; 30]; split; reflexivity.
Defined.

(** X5 on the three sample expenses: a second delete of id 1 answers 404. *)
Lemma delete_expense_frame_witness :
  delete_expense 1 (snd (delete_expense 1 db_three_expenses))
  = (not_found, snd (delete_expense 1 db_three_expenses)).
Proof.
  destruct (delete_expense_frame 1 2 db_three_expenses) as [_ [_ Hagain]].
  apply Hagain; unfold int64; lia.
Defined.

(** X10 on the Food budget of May 2024: a Food budget for June 2024 is
    refused. *)
Lemma create_budget_integrity_error_witness :
  fst (create_budget (food_june 100) db_food_may) = IntegrityError.
Proof.
  destruct (create_budget_integrity_error (food_june 100) db_food_may)
    as [Hiff _].
  apply Hiff; [unfold int64; simpl; lia|].
  split; simpl; [intros [H|[]]; discriminate H | tauto].
Defined.

(** X14 on the three sample expenses: a tea of 2 raises the total from 100
    to 102. *)
Lemma summary_after_create_witness :
  exists s s',
    fst (get_summary db_three_expenses) = Ok s
    /\ fst (get_summary
              (snd (create_expense 4
                      (ExpenseCreate.validate "Tea" 2%Q "Food" Omitted)
                      db_three_expenses))) = Ok s'
    /\ total_expenses s'
       = Binary64.add (total_expenses s)
           (ExpenseCreate.amount
              (ExpenseCreate.validate "Tea" 2%Q "Food" Omitted))
    /\ total_budget s' = total_budget s.
Proof.
  apply (summary_after_create 4
           (ExpenseCreate.validate "Tea" 2%Q "Food" Omitted)
           db_three_expenses).
  - vm_compute; repeat split; discriminate.
  - exact I.
Defined.
